(** * Galaxia_ananke: the isochrone-file reader and the public entry point

    A shallow embedding of [src/Galaxia_ananke/photometry/IsochroneFile.py]
    and of [make_survey_from_particles] in [src/Galaxia_ananke/__init__.py],
    with the properties of the specification proved (or refuted) on it.

    Python values are modelled as follows.
    - [str] is [string]; the string methods used by the source ([strip],
      [replace], [count], [split]) are functions on [string].
    - [float] is [spec_float] at binary64 (53 bits, emax 1024); the builtin
      [float(str)] is [py_float], correctly rounded.
    - a raised exception is the [Raise] branch of [result]; exception classes
      are [exc_class] with their method resolution order.
    - the file system is a finite map from path text to the text of a
      readable file, with a log of the accesses made.
    - astropy, pandas, and the classes [Input] and [Survey] are interfaces
      ([Astropy], [Pipeline]): the source calls them, their code is elsewhere.
      What the constructor needs of astropy is stated as [astropy_contract]. *)

From Stdlib Require Import ZArith NArith String Ascii List SpecFloat Lia Bool.
From Stdlib Require Import DecimalString DecimalZ Sorted Permutation.
From stdpp Require Import gmap strings.
Import ListNotations.

Arguments String.append : simpl nomatch.

(* ===================================================================== *)
(** * Exceptions *)
(* ===================================================================== *)

(** The builtin exception classes the modelled code can raise, and
    [LibraryError name base] for a class defined by a library or by user code
    as a subclass of [base]. *)
Inductive exc_class : Type :=
| BaseException
| Exception
| TypeError
| ValueError
| LookupError
| IndexError
| KeyError
| NameError
| UnboundLocalError
| OSError
| FileNotFoundError
| LibraryError (name : string) (base : exc_class).

Definition class_name (c : exc_class) : string :=
  match c with
  | BaseException => "BaseException"
  | Exception => "Exception"
  | TypeError => "TypeError"
  | ValueError => "ValueError"
  | LookupError => "LookupError"
  | IndexError => "IndexError"
  | KeyError => "KeyError"
  | NameError => "NameError"
  | UnboundLocalError => "UnboundLocalError"
  | OSError => "OSError"
  | FileNotFoundError => "FileNotFoundError"
  | LibraryError name _ => name
  end.

(** Method resolution order: the class followed by its ancestors. *)
Fixpoint mro (c : exc_class) : list exc_class :=
  match c with
  | BaseException => [BaseException]
  | Exception => [Exception; BaseException]
  | TypeError => [TypeError; Exception; BaseException]
  | ValueError => [ValueError; Exception; BaseException]
  | LookupError => [LookupError; Exception; BaseException]
  | IndexError => [IndexError; LookupError; Exception; BaseException]
  | KeyError => [KeyError; LookupError; Exception; BaseException]
  | NameError => [NameError; Exception; BaseException]
  | UnboundLocalError => [UnboundLocalError; NameError; Exception; BaseException]
  | OSError => [OSError; Exception; BaseException]
  | FileNotFoundError => [FileNotFoundError; OSError; Exception; BaseException]
  | LibraryError _ base => c :: mro base
  end.

(** [is_a c name]: an exception of class [c] is caught by [except name]. *)
Definition is_a (c : exc_class) (name : string) : bool :=
  existsb (fun k => String.eqb (class_name k) name) (mro c).

(** The outcome of an expression: a value, or a raised exception with the
    message given to its constructor ([None] where the exception is raised
    inside a library or by the interpreter and its text is not modelled). *)
Inductive result (A : Type) : Type :=
| Ok (a : A)
| Raise (c : exc_class) (msg : option string).
Arguments Ok {A} a.
Arguments Raise {A} c msg.

Definition raised {A} (r : result A) : option exc_class :=
  match r with Ok _ => None | Raise c _ => Some c end.

Definition fails_with {A} (r : result A) (name : string) : bool :=
  match r with Ok _ => false | Raise c _ => is_a c name end.

(* ===================================================================== *)
(** * Python string methods *)
(* ===================================================================== *)

Definition LF : ascii := "010"%char.
Definition CR : ascii := "013"%char.
Definition TAB : ascii := "009"%char.
Definition SP : ascii := " "%char.
Definition HASH : ascii := "#"%char.

Definition chr (c : ascii) : string := String c "".

(** Characters are dropped from the left, then from the right, while they
    belong to the given set. *)
Fixpoint lstrip_by (f : ascii -> bool) (s : string) : string :=
  match s with
  | "" => ""
  | String a r => if f a then lstrip_by f r else s
  end.

Fixpoint rstrip_by (f : ascii -> bool) (s : string) : string :=
  match s with
  | "" => ""
  | String a r =>
      match rstrip_by f r with
      | "" => if f a then "" else chr a
      | r' => String a r'
      end
  end.

Definition strip_by (f : ascii -> bool) (s : string) : string :=
  rstrip_by f (lstrip_by f s).

(** [s.strip(c)] for a one-character argument. *)
Definition strip (c : ascii) (s : string) : string := strip_by (Ascii.eqb c) s.

(** [s.replace(old, new)], [s.count(sub)] and [s.split(sep)] scan from the left
    over non-overlapping occurrences; [skip] counts the characters of the
    occurrence just found that are still to be passed over. The pattern is
    non-empty at every use in the source. *)
Fixpoint replace_go (old new : string) (skip : nat) (s : string) : string :=
  match s with
  | "" => ""
  | String c r =>
      match skip with
      | S k => replace_go old new k r
      | O =>
          if String.prefix old s
          then new +:+ replace_go old new (String.length old - 1) r
          else String c (replace_go old new 0 r)
      end
  end.

Definition replace (old new s : string) : string := replace_go old new 0 s.

Fixpoint count_go (sub : string) (skip : nat) (s : string) : nat :=
  match s with
  | "" => 0
  | String c r =>
      match skip with
      | S k => count_go sub k r
      | O =>
          if String.prefix sub s
          then S (count_go sub (String.length sub - 1) r)
          else count_go sub 0 r
      end
  end.

Definition count (sub s : string) : nat := count_go sub 0 s.

Definition cons_first (c : ascii) (l : list string) : list string :=
  match l with
  | x :: xs => String c x :: xs
  | [] => [chr c]
  end.

Fixpoint split_go (sep : string) (skip : nat) (s : string) : list string :=
  match s with
  | "" => [""]
  | String c r =>
      match skip with
      | S k => split_go sep k r
      | O =>
          if String.prefix sep s
          then "" :: split_go sep (String.length sep - 1) r
          else cons_first c (split_go sep 0 r)
      end
  end.

Definition split (sep s : string) : list string := split_go sep 0 s.

(** [sub in s]. *)
Fixpoint contains (sub s : string) : bool :=
  String.prefix sub s ||
  match s with
  | "" => false
  | String _ r => contains sub r
  end.

Definition starts_with (c : ascii) (s : string) : bool :=
  match s with
  | String a _ => Ascii.eqb a c
  | "" => false
  end.

(* ===================================================================== *)
(** * The regular expressions of the source *)
(* ===================================================================== *)

(** The source builds one pattern: a look-behind for [A], one group holding a
    greedy dot-star, and a look-ahead for [B], where [A] and [B] are the two
    pieces of [_file_format]. In [A] and [B] a dot is the wildcard (any
    character but a line feed) and every other character of the pieces stands
    for itself. *)
Inductive re_atom : Type :=
| Lit (c : ascii)
| AnyChar.

Fixpoint re_atoms (s : string) : list re_atom :=
  match s with
  | "" => []
  | String c r => (if Ascii.eqb c "."%char then AnyChar else Lit c) :: re_atoms r
  end.

Definition atom_matches (a : re_atom) (c : ascii) : bool :=
  match a with
  | Lit x => Ascii.eqb x c
  | AnyChar => negb (Ascii.eqb c LF)
  end.

(** The atoms match a prefix of [s]. *)
Fixpoint match_here (p : list re_atom) (s : string) : bool :=
  match p, s with
  | [], _ => true
  | _ :: _, "" => false
  | a :: p', String c s' => atom_matches a c && match_here p' s'
  end.

(** The greedy dot-star followed by the look-ahead, at the start of [s]: the
    longest run of characters other than line feeds after which [B] matches,
    if there is one. *)
Fixpoint greedy (la : list re_atom) (s : string) : option string :=
  match s with
  | "" => if match_here la s then Some "" else None
  | String c r =>
      if Ascii.eqb c LF
      then (if match_here la s then Some "" else None)
      else match greedy la r with
           | Some g => Some (String c g)
           | None => if match_here la s then Some "" else None
           end
  end.

(** [re.findall] for that pattern: the groups of the successive
    non-overlapping matches, leftmost first. [before] holds the text already
    passed, last character first, for the look-behind; [lb_rev] is [A]
    reversed. After an empty match the scan resumes one character later. *)
Fixpoint findall_go (lb_rev la : list re_atom) (skip : nat) (before s : string)
  : list string :=
  let here := if match_here lb_rev before then greedy la s else None in
  match s with
  | "" =>
      match skip, here with
      | O, Some g => [g]
      | _, _ => []
      end
  | String c r =>
      match skip with
      | S k => findall_go lb_rev la k (String c before) r
      | O =>
          match here with
          | Some g => g :: findall_go lb_rev la (String.length g - 1) (String c before) r
          | None => findall_go lb_rev la 0 (String c before) r
          end
      end
  end.

(** The compiled pattern: look-behind and look-ahead atoms. *)
Record regex : Type := { lookbehind : list re_atom; lookahead : list re_atom }.

Definition re_findall (re : regex) (s : string) : list string :=
  findall_go (rev (lookbehind re)) (lookahead re) 0 "" s.

(** The pattern that [_file_format] gives rise to. *)
Definition the_regex : regex :=
  {| lookbehind := re_atoms "output_"; lookahead := re_atoms ".dat" |}.

(* ===================================================================== *)
(** * The builtin [float] on text *)
(* ===================================================================== *)

Definition code (c : ascii) : nat := nat_of_ascii c.

Definition is_digit (c : ascii) : bool := (48 <=? code c) && (code c <=? 57).

(** The characters [float] drops at both ends: tab to carriage return and
    the space and, beyond the first 128 code points, next-line and the
    no-break space, which it first turns into spaces. *)
Definition is_space (c : ascii) : bool :=
  ((9 <=? code c) && (code c <=? 13)) || (code c =? 32) || (code c =? 133)
  || (code c =? 160).

Definition to_lower (c : ascii) : ascii :=
  if (65 <=? code c) && (code c <=? 90) then ascii_of_nat (code c + 32) else c.

Fixpoint lower (s : string) : string :=
  match s with
  | "" => ""
  | String c r => String (to_lower c) (lower r)
  end.

(** Underscores in a numeric literal: each one must follow a digit and be
    followed by a digit; they are then dropped. [prev] is the character
    before the one looked at. *)
Fixpoint drop_underscores (prev : ascii) (s : string) : option string :=
  match s with
  | "" => if Ascii.eqb prev "_" then None else Some ""
  | String c r =>
      if Ascii.eqb c "_"
      then (if is_digit prev then drop_underscores c r else None)
      else if Ascii.eqb prev "_" && negb (is_digit c) then None
      else match drop_underscores c r with
           | Some t => Some (String c t)
           | None => None
           end
  end.

Fixpoint span_digits (s : string) : string * string :=
  match s with
  | "" => ("", "")
  | String c r =>
      if is_digit c
      then let (d, r') := span_digits r in (String c d, r')
      else ("", s)
  end.

Fixpoint digits_val (acc : Z) (s : string) : Z :=
  match s with
  | "" => acc
  | String c r => digits_val (10 * acc + (Z.of_nat (code c) - 48)) r
  end.

Definition take_sign (s : string) : bool * string :=
  match s with
  | String c r =>
      if Ascii.eqb c "-" then (true, r)
      else if Ascii.eqb c "+" then (false, r)
      else (false, s)
  | "" => (false, "")
  end.

(** A decimal literal without its sign, all of it: digits with at most one
    point and at least one digit, then possibly an exponent. The value is
    [mantissa * 10 ^ exponent]. *)
Definition parse_decimal (s : string) : option (Z * Z) :=
  let (ip, r1) := span_digits s in
  let (fp, r2) :=
    match r1 with
    | String c r => if Ascii.eqb c "." then span_digits r else ("", r1)
    | "" => ("", "")
    end in
  if (String.length ip + String.length fp =? 0)%nat then None
  else
    let m := digits_val 0 (ip +:+ fp) in
    let shift := Z.of_nat (String.length fp) in
    match r2 with
    | "" => Some (m, (- shift)%Z)
    | String c r3 =>
        if Ascii.eqb (to_lower c) "e"
        then
          let (neg, r4) := take_sign r3 in
          let (ed, r5) := span_digits r4 in
          match ed, r5 with
          | String _ _, "" =>
              let e := digits_val 0 ed in
              Some (m, ((if neg then - e else e) - shift)%Z)
          | _, _ => None
          end
        else None
    end.

(** The binary64 number nearest to [m * 10 ^ e] (ties to even), for [m >= 0];
    the quotient of two integers is rounded once. *)
Definition dec64 (sign : bool) (m e : Z) : spec_float :=
  match m with
  | Z0 => S754_zero sign
  | _ =>
      let n := (m * 10 ^ Z.max e 0)%Z in
      let d := (10 ^ Z.max (- e) 0)%Z in
      let '(q, e2, l) := SFdiv_core_binary 53 1024 n 0 d 0 in
      binary_round_aux 53 1024 sign q e2 l
  end.

(** [float(s)]: surrounding whitespace is ignored; the rest is a signed
    decimal literal, or a signed [inf], [infinity] or [nan] in any case.
    Anything else raises [ValueError]. A value too large is an infinity. *)
Definition py_float (s : string) : result spec_float :=
  match drop_underscores "000" (strip_by is_space s) with
  | None => Raise ValueError None
  | Some t =>
      let (neg, body) := take_sign t in
      let low := lower body in
      if String.eqb low "inf" || String.eqb low "infinity" then Ok (S754_infinity neg)
      else if String.eqb low "nan" then Ok S754_nan
      else match parse_decimal body with
           | Some (m, e) => Ok (dec64 neg m e)
           | None => Raise ValueError None
           end
  end.

(* ===================================================================== *)
(** * Paths and files *)
(* ===================================================================== *)

(** [pathlib.PurePosixPath]: the root and the components. Empty components
    and single dots are dropped when the text is parsed; exactly two leading
    slashes are kept as they are, any other number of them is one. *)
Record Path : Type := { root : string; parts : list string }.

Fixpoint leading_slashes (s : string) : nat :=
  match s with
  | String c r => if Ascii.eqb c "/" then S (leading_slashes r) else 0
  | "" => 0
  end.

Definition Path_of_str (s : string) : Path :=
  let n := leading_slashes s in
  {| root := if (n =? 0)%nat then "" else if (n =? 2)%nat then "//" else "/";
     parts := List.filter (fun x => negb (String.eqb x "") && negb (String.eqb x "."))
                (split "/" s) |}.

(** [path.name]: the last component, or the empty text when there is none. *)
Definition Path_name (p : Path) : string := List.last (parts p) "".

Fixpoint join (sep : string) (l : list string) : string :=
  match l with
  | [] => ""
  | [x] => x
  | x :: xs => x +:+ sep +:+ join sep xs
  end.

(** [str(path)], which is also what [open] receives. *)
Definition Path_str (p : Path) : string :=
  match parts p, root p with
  | [], "" => "."
  | _, _ => root p +:+ join "/" (parts p)
  end.

Inductive io_event : Type :=
| EvOpen (name : string)
| EvRead (name : string)
| EvWrite (name : string).

(** The world outside the interpreter: the regular files by name, each
    readable and holding text, and the accesses made so far, oldest first. A
    name that is not in the map is that of a missing file; directories,
    unreadable files and files that do not decode are not part of it. *)
Record World : Type := { files : gmap string string; io_log : list io_event }.

Definition log_event (e : io_event) (w : World) : World :=
  {| files := files w; io_log := io_log w ++ [e] |}.

Definition is_write (e : io_event) : bool :=
  match e with EvWrite _ => true | _ => false end.

(** Text mode translates every line ending to a line feed. *)
Fixpoint universal_newlines (s : string) : string :=
  match s with
  | "" => ""
  | String c r =>
      if Ascii.eqb c CR
      then String LF match r with
                     | String c' r' => if Ascii.eqb c' LF then universal_newlines r'
                                       else universal_newlines r
                     | "" => ""
                     end
      else String c (universal_newlines r)
  end.

(** [f.readline()]: the text up to and including the next line feed, or all
    that is left; the second component is what remains in the stream. *)
Fixpoint readline (f : string) : string * string :=
  match f with
  | "" => ("", "")
  | String c r =>
      if Ascii.eqb c LF then (chr LF, r)
      else let (l, r') := readline r in (String c l, r')
  end.

(* ===================================================================== *)
(** * The libraries behind the isochrone file *)
(* ===================================================================== *)

(** The attributes of the [Isochrone] class that the source reads: the names
    of the age and of the initial-mass columns. *)
Record Isochrone : Type := { _Age : string; _M_ini : string }.

(** astropy and pandas, as far as the source calls them.
    - [from_pandas] is [ascii.core.Table.from_pandas];
    - [Table_sort keys t] is [t.sort(keys)], in place in the source;
    - [Table_write t name fs] is [t.write(name, format='ascii.commented_header')]
      on the files [fs];
    - [ascii_read fs name names] is [ascii.read(name, names=names)]. *)
Class Astropy : Type := {
  Table : Type;
  DataFrame : Type;
  from_pandas : DataFrame -> Table;
  Table_sort : list string -> Table -> result Table;
  Table_write : Table -> string -> gmap string string -> result unit * gmap string string;
  ascii_read : gmap string string -> string -> option (list string) -> result Table
}.

Section IsochroneFile.
Context {astropy : Astropy}.

(** A positional argument of the constructor. *)
Inductive pyobj : Type :=
| PyStr (s : string)
| PyPath (p : Path)
| PyDataFrame (d : DataFrame)
| PyTable (t : Table)
| PyInt (z : Z)
| PyNone.

(** [pathlib.Path(x)] takes text or a path-like object, and raises
    [TypeError] for anything else. *)
Definition pathlib_Path (x : pyobj) : result Path :=
  match x with
  | PyStr s => Ok (Path_of_str s)
  | PyPath p => Ok p
  | _ => Raise TypeError None
  end.

Record IsochroneFile : Type := {
  _isochrone : Isochrone;
  _path : Path;
  _column_names : option (list string);
  _data : option Table
}.

Definition set_column_names (v : option (list string)) (self : IsochroneFile) : IsochroneFile :=
  {| _isochrone := _isochrone self; _path := _path self;
     _column_names := v; _data := _data self |}.

Definition set_data (v : option Table) (self : IsochroneFile) : IsochroneFile :=
  {| _isochrone := _isochrone self; _path := _path self;
     _column_names := _column_names self; _data := v |}.

Definition _file_format : string := "output_{}.dat".

(** A method: from the object and the world to an outcome, the object and the
    world after it. Attributes set before an exception stay set. *)
Definition method (A : Type) : Type :=
  IsochroneFile -> World -> result A * IsochroneFile * World.

Definition path (self : IsochroneFile) : Path := _path self.

Definition filename (self : IsochroneFile) : string := Path_name (_path self).

Definition isochrone (self : IsochroneFile) : Isochrone := _isochrone self.

Definition __repr__ (self : IsochroneFile) : string :=
  "IsochroneFile" +:+ "(" +:+ join ", " ["filename=" +:+ filename self] +:+ ")".

Definition as_table (data : pyobj) : option Table :=
  match data with
  | PyDataFrame d => Some (from_pandas d)
  | PyTable t => Some t
  | _ => None
  end.

Definition _write_table (self : IsochroneFile) (data : pyobj) (w : World)
  : result unit * World :=
  match as_table data with
  | None =>
      (Raise ValueError
         (Some "Given data should either be a pandas DataFrame or an astropy Table"), w)
  | Some t =>
      match Table_sort [_Age (isochrone self); _M_ini (isochrone self)] t with
      | Raise c m => (Raise c m, w)
      | Ok ts =>
          let name := Path_str (path self) in
          let (r, fs) := Table_write ts name (files w) in
          (r, {| files := fs; io_log := io_log w ++ [EvWrite name] |})
      end
  end.

Definition too_many (n : nat) : string :=
  "Too many arguments (" +:+ NilEmpty.string_of_uint (Nat.to_uint n) +:+ " given)".

(** The constructor, called with positional arguments [args] and the keyword
    [isochrone]. While
    [_write_table] runs the two cache attributes are not set yet; it does not
    read them. *)
Definition __init__ (args : list pyobj) (isochrone : option Isochrone) (w : World)
  : result IsochroneFile * World :=
  match isochrone with
  | None => (Raise TypeError (Some "Keyword argument 'isochrone' missing"), w)
  | Some iso =>
      match args with
      | [] => (Raise TypeError (Some "Isochrone requires at least one argument"), w)
      | a0 :: rest =>
          if (length args =? 1)%nat || (length args =? 2)%nat then
            match pathlib_Path a0 with
            | Raise c m => (Raise c m, w)
            | Ok p =>
                let self := {| _isochrone := iso; _path := p;
                               _column_names := None; _data := None |} in
                match rest with
                | [a1] =>
                    match _write_table self a1 w with
                    | (Raise c m, w1) => (Raise c m, w1)
                    | (Ok _, w1) => (Ok self, w1)
                    end
                | _ => (Ok self, w)
                end
            end
          else (Raise TypeError (Some (too_many (length args))), w)
      end
  end.

(** [open(self._path, 'r')] in a world of readable text files: the text of
    the file, or [FileNotFoundError] for a missing one. *)
Definition _open (self : IsochroneFile) (w : World) : result string * World :=
  let name := Path_str (_path self) in
  let w1 := log_event (EvOpen name) w in
  match files w !! name with
  | Some content => (Ok (universal_newlines content), w1)
  | None => (Raise FileNotFoundError None, w1)
  end.

(** The test of the [while] and of the [if] in [_load_column_names]. *)
Definition is_comment (_temp : string) : bool :=
  match _temp with
  | String c _ => Ascii.eqb c HASH
  | "" => false
  end.

(** The reading loop: [header] is [None] while the variable is unbound. Each
    turn reads one line, so a stream of [n] characters needs at most [n + 1]
    turns. *)
Fixpoint header_loop (fuel : nat) (_temp : string) (header : option string) (f : string)
  : option string :=
  match fuel with
  | O => header
  | S n =>
      if is_comment _temp then
        let (line, f') := readline f in
        header_loop n line (if is_comment line then Some line else header) f'
      else header
  end.

Definition read_header (f : string) : option string :=
  header_loop (S (String.length f)) "#" None f.

Fixpoint collapse_loop (fuel : nat) (header : string) : string :=
  match fuel with
  | O => header
  | S n =>
      if (count "  " header =? 0)%nat then header
      else collapse_loop n (replace "  " " " header)
  end.

(** Lines 61 to 64 of the source, on the header line found. *)
Definition parse_header (header : string) : list string :=
  let header := replace (chr TAB) " " (strip LF (strip SP (strip HASH header))) in
  let header := collapse_loop (String.length header) header in
  split " " header.

Definition _load_column_names : method unit := fun self w =>
  match _open self w with
  | (Raise c m, w1) => (Raise c m, self, w1)
  | (Ok f, w1) =>
      match read_header f with
      | None => (Raise UnboundLocalError None, self, w1)
      | Some header => (Ok tt, set_column_names (Some (parse_header header)) self, w1)
      end
  end.

Definition column_names : method (option (list string)) := fun self w =>
  match _column_names self with
  | None =>
      match _load_column_names self w with
      | (Raise c m, self1, w1) => (Raise c m, self1, w1)
      | (Ok _, self1, w1) => (Ok (_column_names self1), self1, w1)
      end
  | Some _ => (Ok (_column_names self), self, w)
  end.

Definition _load_data : method unit := fun self w =>
  match column_names self w with
  | (Raise c m, self1, w1) => (Raise c m, self1, w1)
  | (Ok names, self1, w1) =>
      let name := Path_str (_path self1) in
      let w2 := log_event (EvRead name) w1 in
      match ascii_read (files w1) name names with
      | Raise c m => (Raise c m, self1, w2)
      | Ok t => (Ok tt, set_data (Some t) self1, w2)
      end
  end.

Definition data : method (option Table) := fun self w =>
  match _data self with
  | None =>
      match _load_data self w with
      | (Raise c m, self1, w1) => (Raise c m, self1, w1)
      | (Ok _, self1, w1) => (Ok (_data self1), self1, w1)
      end
  | Some _ => (Ok (_data self), self, w)
  end.

(** The pattern of [metallicity], from the pieces of [_file_format]. *)
Definition metallicity_regex : result regex :=
  match split "{}" _file_format with
  | a :: b :: _ => Ok {| lookbehind := re_atoms a; lookahead := re_atoms b |}
  | _ => Raise IndexError None
  end.

Definition metallicity (self : IsochroneFile) : result spec_float :=
  match metallicity_regex with
  | Raise c m => Raise c m
  | Ok re =>
      match re_findall re (filename self) with
      | g :: _ => py_float g
      | [] => Raise IndexError None
      end
  end.

(** The attributes a caller can read, as one function. *)
Inductive member : Type :=
| m_path | m_filename | m_metallicity | m_column_names | m_data | m_isochrone.

Inductive pyvalue : Type :=
| VPath (p : Path)
| VStr (s : string)
| VFloat (f : spec_float)
| VNames (l : option (list string))
| VTable (t : option Table)
| VIsochrone (i : Isochrone).

Definition lift {A} (f : A -> pyvalue) (r : result A) : result pyvalue :=
  match r with
  | Ok a => Ok (f a)
  | Raise c m => Raise c m
  end.

Definition getattr (m : member) : method pyvalue := fun self w =>
  match m with
  | m_path => (Ok (VPath (path self)), self, w)
  | m_filename => (Ok (VStr (filename self)), self, w)
  | m_metallicity => (lift VFloat (metallicity self), self, w)
  | m_column_names =>
      let '(r, self1, w1) := column_names self w in (lift VNames r, self1, w1)
  | m_data =>
      let '(r, self1, w1) := data self w in (lift VTable r, self1, w1)
  | m_isochrone => (Ok (VIsochrone (isochrone self)), self, w)
  end.

(** What a lazily computed attribute holds once computed. *)
Definition cached (m : member) (self : IsochroneFile) : option pyvalue :=
  match m with
  | m_column_names =>
      match _column_names self with Some l => Some (VNames (Some l)) | None => None end
  | m_data =>
      match _data self with Some t => Some (VTable (Some t)) | None => None end
  | _ => None
  end.

(** The life of an object after construction: reads of its attributes, and
    changes made to the files by anyone. *)
Inductive action : Type :=
| Get (m : member)
| Disturb (fs : gmap string string).

Fixpoint run (acts : list action) (self : IsochroneFile) (w : World)
  : IsochroneFile * World :=
  match acts with
  | [] => (self, w)
  | Get m :: rest => let '(_, self1, w1) := getattr m self w in run rest self1 w1
  | Disturb fs :: rest => run rest self {| files := fs; io_log := io_log w |}
  end.

(** The file accesses that compute an attribute: opening the file for the
    column names, the library's read for the data. *)
Definition loads (m : member) (l : list io_event) : list io_event :=
  List.filter (fun e =>
    match m, e with
    | m_column_names, EvOpen _ => true
    | m_data, EvRead _ => true
    | _, _ => false
    end) l.

End IsochroneFile.

(* ===================================================================== *)
(** * The shape of a header line *)
(* ===================================================================== *)

Fixpoint all_chars (f : ascii -> bool) (s : string) : bool :=
  match s with
  | "" => true
  | String c r => f c && all_chars f r
  end.

Definition blank (c : ascii) : bool := Ascii.eqb c SP || Ascii.eqb c TAB.

Definition no_LF (s : string) : bool := all_chars (fun c => negb (Ascii.eqb c LF)) s.

(** A character of a name: neither a blank nor a line feed. *)
Definition plain (c : ascii) : bool := negb (blank c) && negb (Ascii.eqb c LF).

(** A column name: not empty, without blanks or line feeds. *)
Definition is_name (n : string) : bool :=
  negb (String.eqb n "") && all_chars plain n.

(** A separator: a non-empty run of spaces and tabs. *)
Definition is_separator (s : string) : bool :=
  negb (String.eqb s "") && all_chars blank s.

(** Names with the separators before each but the first. *)
Fixpoint names_line (n1 : string) (rest : list (string * string)) : string :=
  match rest with
  | [] => n1
  | (sep, n) :: r => n1 +:+ sep +:+ names_line n r
  end.

Fixpoint spaces (n : nat) : string :=
  match n with
  | O => ""
  | S k => String SP (spaces k)
  end.

(** A header line: the marker, spaces, the names, the line feed. *)
Definition header_line (lead : nat) (n1 : string) (rest : list (string * string)) : string :=
  String HASH (spaces lead +:+ names_line n1 rest +:+ chr LF).

(** Comment lines, each given by its text after the marker. *)
Fixpoint comment_block (cs : list string) : string :=
  match cs with
  | [] => ""
  | c :: r => String HASH (c +:+ chr LF +:+ comment_block r)
  end.

(** Every separator and every name after the first is one. *)
Definition well_formed_rest (rest : list (string * string)) : bool :=
  forallb (fun p => is_separator (fst p) && is_name (snd p)) rest.

(** The last line of a block of comment lines, or [header] for none. *)
Fixpoint last_comment (cs : list string) (header : option string) : option string :=
  match cs with
  | [] => header
  | c :: r => last_comment r (Some (String HASH (c +:+ chr LF)))
  end.

(** What the collapsing loop computes: every run of spaces becomes one. *)
Fixpoint squeeze (s : string) : string :=
  match s with
  | "" => ""
  | String a r =>
      let t := squeeze r in
      if Ascii.eqb a SP && starts_with SP t then t else String a t
  end.

(** What replacing tabs computes. *)
Fixpoint untab (s : string) : string :=
  match s with
  | "" => ""
  | String a r => String (if Ascii.eqb a TAB then SP else a) (untab r)
  end.

(** The text starts with two spaces. *)
Definition starts2 (s : string) : bool :=
  match s with
  | String a r => Ascii.eqb SP a && starts_with SP r
  | "" => false
  end.

(* ===================================================================== *)
(** * A small instance of the library interface *)
(* ===================================================================== *)

(** Tables of integers with named columns, written and read as text: enough
    of the interface to run the model on concrete files. *)
Record MiniTable : Type := { colnames : list string; rows : list (list Z) }.

Fixpoint index_of (k : string) (l : list string) : option nat :=
  match l with
  | [] => None
  | x :: xs => if String.eqb x k then Some 0%nat
               else match index_of k xs with Some i => Some (S i) | None => None end
  end.

Fixpoint indices_of (keys cols : list string) : option (list nat) :=
  match keys with
  | [] => Some []
  | k :: ks =>
      match index_of k cols, indices_of ks cols with
      | Some i, Some l => Some (i :: l)
      | _, _ => None
      end
  end.

(** The cells of a row in the key columns, first key first. *)
Definition key_of {C : Type} (idx : list nat) (row : list C) : list C :=
  flat_map (fun i => match nth_error row i with Some c => [c] | None => [] end) idx.

(** [a] is not after [b] in the lexicographic order of the cells. *)
Fixpoint lex_leb {C : Type} (leb : C -> C -> bool) (a b : list C) : bool :=
  match a, b with
  | x :: a', y :: b' =>
      if leb x y then (if leb y x then lex_leb leb a' b' else true) else false
  | _, _ => true
  end.

Definition rows_leb {C : Type} (leb : C -> C -> bool) (idx : list nat) (r1 r2 : list C)
  : bool :=
  lex_leb leb (key_of idx r1) (key_of idx r2).

Fixpoint insert_row (idx : list nat) (r : list Z) (l : list (list Z)) : list (list Z) :=
  match l with
  | [] => [r]
  | x :: xs =>
      if rows_leb Z.leb idx r x then r :: l
      else x :: insert_row idx r xs
  end.

Definition sort_rows (idx : list nat) (l : list (list Z)) : list (list Z) :=
  fold_right (insert_row idx) [] l.

(** Sorting by a key that is not a column raises [ValueError]. *)
Definition mini_sort (keys : list string) (t : MiniTable) : result MiniTable :=
  match indices_of keys (colnames t) with
  | None => Raise ValueError None
  | Some idx => Ok {| colnames := colnames t; rows := sort_rows idx (rows t) |}
  end.

Definition show_Z (z : Z) : string := NilEmpty.string_of_int (Z.to_int z).

Definition mini_render (t : MiniTable) : string :=
  "# " +:+ join " " (colnames t) +:+ chr LF +:+
  fold_right (fun r acc => join " " (List.map show_Z r) +:+ chr LF +:+ acc) "" (rows t).

(** An existing file is not overwritten. *)
Definition mini_write (t : MiniTable) (name : string) (fs : gmap string string)
  : result unit * gmap string string :=
  match fs !! name with
  | Some _ => (Raise OSError None, fs)
  | None => (Ok tt, <[name := mini_render t]> fs)
  end.

Fixpoint read_cells (l : list string) : option (list Z) :=
  match l with
  | [] => Some []
  | x :: xs =>
      match NilEmpty.int_of_string x, read_cells xs with
      | Some i, Some r => Some (Z.of_int i :: r)
      | _, _ => None
      end
  end.

Fixpoint read_rows (width : nat) (lines : list string) : option (list (list Z)) :=
  match lines with
  | [] => Some []
  | l :: ls =>
      if String.eqb l "" || Ascii.eqb (match l with String c _ => c | "" => SP end) HASH
      then read_rows width ls
      else match read_cells (split " " l), read_rows width ls with
           | Some r, Some rs => if (length r =? width)%nat then Some (r :: rs) else None
           | _, _ => None
           end
  end.

Definition mini_read (fs : gmap string string) (name : string) (names : option (list string))
  : result MiniTable :=
  match fs !! name, names with
  | None, _ => Raise FileNotFoundError None
  | Some _, None => Raise TypeError None
  | Some text, Some ns =>
      match read_rows (length ns) (split (chr LF) text) with
      | Some rs => Ok {| colnames := ns; rows := rs |}
      | None => Raise (LibraryError "InconsistentTableError" ValueError) None
      end
  end.

(** The text of a row and of the rows, as [mini_render] writes them, and the
    characters of a cell. *)
Definition cell_char (c : ascii) : bool := is_digit c || Ascii.eqb c "-".

Definition row_text (r : list Z) : string := join " " (List.map show_Z r).

Definition rows_text (rs : list (list Z)) : string :=
  fold_right (fun r acc => row_text r +:+ chr LF +:+ acc) "" rs.

#[local] Instance mini_astropy : Astropy := {|
  Table := MiniTable;
  DataFrame := MiniTable;
  from_pandas := fun d => d;
  Table_sort := mini_sort;
  Table_write := mini_write;
  ascii_read := mini_read
|}.

(* ===================================================================== *)
(** * What the model expects of the library *)
(* ===================================================================== *)

(** What can be seen of a table: its column names, its rows of cells (cell
    [i] of a row belongs to column [i]), the order of the cells of a column,
    and the text that the writer produces for it. *)
Class TableView (A : Astropy) : Type := {
  Cell : Type;
  cell_leb : Cell -> Cell -> bool;
  table_colnames : Table -> list string;
  table_rows : Table -> list (list Cell);
  written_text : Table -> string
}.

Definition word_char (c : ascii) : bool :=
  ((65 <=? code c) && (code c <=? 90)) || ((97 <=? code c) && (code c <=? 122))
  || is_digit c || (code c =? 95).

(** A column name that the writer leaves as it is: a letter, then letters,
    digits and underscores. *)
Definition is_word (n : string) : bool :=
  match n with
  | "" => false
  | String c r => negb (is_digit c) && all_chars word_char n
  end.

Section Contract.
Context {A : Astropy} {V : TableView A}.

(** Every row has one cell per column. *)
Definition rectangular (t : Table) : bool :=
  forallb (fun r => (length r =? length (table_colnames t))%nat) (table_rows t).

(** The rows are in ascending order of the key columns, first key first. *)
Definition sorted_by (keys : list string) (t : Table) : Prop :=
  match indices_of keys (table_colnames t) with
  | Some idx => StronglySorted (fun r1 r2 => rows_leb cell_leb idx r1 r2 = true) (table_rows t)
  | None => False
  end.

(** The behaviour of astropy that the two-argument constructor relies on.
    - Sorting by columns that the table has succeeds, keeps the columns and
      the rows, and leaves the rows in ascending order of the keys.
    - Writing refuses a name that already exists, with [OSError]; a write
      that succeeds puts the text of the table under the name.
    - The text starts with the commented line of the column names; what
      follows does not start with the marker.
    - Reading the text back with the column names gives the table. *)
Record astropy_contract : Prop := {
  sort_defined : forall keys t,
    (forall k, In k keys -> In k (table_colnames t)) ->
    exists ts, Table_sort keys t = Ok ts;
  sort_sorted : forall keys t ts,
    rectangular t = true -> Table_sort keys t = Ok ts ->
    table_colnames ts = table_colnames t /\
    Permutation (table_rows ts) (table_rows t) /\
    sorted_by keys ts;
  write_refused : forall t name fs c,
    fs !! name = Some c -> Table_write t name fs = (Raise OSError None, fs);
  write_done : forall t name fs fs',
    Table_write t name fs = (Ok tt, fs') -> fs' = <[name := written_text t]> fs;
  written_header : forall t,
    forallb is_word (table_colnames t) = true -> table_colnames t <> [] ->
    exists body,
      universal_newlines (written_text t)
      = "# " +:+ join " " (table_colnames t) +:+ chr LF +:+ body /\
      is_comment body = false;
  read_written : forall t name fs,
    forallb is_word (table_colnames t) = true -> table_colnames t <> [] ->
    rectangular t = true ->
    fs !! name = Some (written_text t) ->
    ascii_read fs name (Some (table_colnames t)) = Ok t
}.

End Contract.

#[local] Instance mini_view : TableView mini_astropy := {|
  Cell := Z;
  cell_leb := Z.leb;
  table_colnames := colnames;
  table_rows := rows;
  written_text := mini_render
|}.


(* ===================================================================== *)
(** * The public entry point *)
(* ===================================================================== *)

(** The classes [Input] and [Survey] that [make_survey_from_particles] wires
    together, and the constants it takes its defaults from. [Env] is whatever
    these classes act on (files, the external engine). *)
Class Pipeline : Type := {
  Array : Type;
  Kwargs : Type;
  InputT : Type;
  SurveyT : Type;
  OutputT : Type;
  Env : Type;
  DEFAULT_PSYS : string;
  DEFAULT_CMD : string;
  (** [Input(pname=pname, kname=kname)] *)
  Input_files : string -> string -> Env -> result InputT * Env;
  (** [Input(args..., name=simname, knorm=knorm, ngb=ngb)] *)
  Input_arrays : list Array -> string -> spec_float -> Z -> Env -> result InputT * Env;
  (** [Survey(input, photo_sys=photo_sys, surveyname=surveyname)] *)
  Survey : InputT -> string -> string -> Env -> result SurveyT * Env;
  (** [survey.make_survey(cmd_magnames=..., fsample=..., kwargs...)] *)
  make_survey : SurveyT -> string -> spec_float -> Kwargs -> Env -> result OutputT * Env
}.

Section EntryPoint.
Context {pipeline : Pipeline}.

(** The arguments of one call, defaults filled in. *)
Record call : Type := {
  args : list Array;
  pname : option string;
  kname : option string;
  photo_sys : string;
  cmd_magnames : string;
  simname : string;
  surveyname : string;
  fsample : spec_float;
  ngb : Z;
  knorm : spec_float;
  kwargs : Kwargs
}.

(** The [if]/[elif] of lines 116 to 119: the value bound to the local
    variable [input], or [None] when neither branch runs and it stays
    unbound. *)
Definition bind_input (c : call) (e : Env) : option (result InputT * Env) :=
  match pname c, kname c with
  | Some p, Some k => Some (Input_files p k e)
  | _, _ =>
      if (length (args c) =? 3)%nat
      then Some (Input_arrays (args c) (simname c) (knorm c) (ngb c) e)
      else None
  end.

(** The defaults of the signature. *)
Definition knorm_default : spec_float := Eval vm_compute in dec64 false 596831 (-6).

Definition default_call (a : list Array) (kw : Kwargs) : call :=
  {| args := a; pname := None; kname := None;
     photo_sys := DEFAULT_PSYS; cmd_magnames := DEFAULT_CMD;
     simname := "sim"; surveyname := "survey";
     fsample := S754_finite false 4503599627370496 (-52);
     ngb := 64; knorm := knorm_default; kwargs := kw |}.

Definition make_survey_from_particles (c : call) (e : Env) : result OutputT * Env :=
  match bind_input c e with
  | None => (Raise UnboundLocalError None, e)
  | Some (Raise x m, e1) => (Raise x m, e1)
  | Some (Ok input, e1) =>
      match Survey input (photo_sys c) (surveyname c) e1 with
      | (Raise x m, e2) => (Raise x m, e2)
      | (Ok survey, e2) => make_survey survey (cmd_magnames c) (fsample c) (kwargs c) e2
      end
  end.

(** The call gives both [pname] and [kname]. *)
Definition selects_files (c : call) : bool :=
  match pname c, kname c with
  | Some _, Some _ => true
  | _, _ => false
  end.

(** The call gives the three positional arguments. *)
Definition selects_arrays (c : call) : bool := (length (args c) =? 3)%nat.

Definition set_args (a : list Array) (c : call) : call :=
  {| args := a; pname := pname c; kname := kname c; photo_sys := photo_sys c;
     cmd_magnames := cmd_magnames c; simname := simname c; surveyname := surveyname c;
     fsample := fsample c; ngb := ngb c; knorm := knorm c; kwargs := kwargs c |}.

Definition set_fsample (f : spec_float) (c : call) : call :=
  {| args := args c; pname := pname c; kname := kname c; photo_sys := photo_sys c;
     cmd_magnames := cmd_magnames c; simname := simname c; surveyname := surveyname c;
     fsample := f; ngb := ngb c; knorm := knorm c; kwargs := kwargs c |}.

Definition set_names (p k : option string) (c : call) : call :=
  {| args := args c; pname := p; kname := k; photo_sys := photo_sys c;
     cmd_magnames := cmd_magnames c; simname := simname c; surveyname := surveyname c;
     fsample := fsample c; ngb := ngb c; knorm := knorm c; kwargs := kwargs c |}.

Definition set_array_options (sim : string) (kn : spec_float) (ng : Z) (c : call) : call :=
  {| args := args c; pname := pname c; kname := kname c; photo_sys := photo_sys c;
     cmd_magnames := cmd_magnames c; simname := sim; surveyname := surveyname c;
     fsample := fsample c; ngb := ng; knorm := kn; kwargs := kwargs c |}.

End EntryPoint.

(* ===================================================================== *)
(** * The collaborators of the entry point, from the specification *)
(* ===================================================================== *)

Definition one64 : spec_float := S754_finite false 4503599627370496 (-52).

(** A sample fraction is acceptable when it lies in the closed unit
    interval. *)
Definition fsample_ok (f : spec_float) : bool :=
  SFleb (S754_zero false) f && SFleb f one64.

Inductive spec_event : Type :=
| WroteExchangeFiles (name : string)
| WroteParameterFile (name : string)
| EngineInvoked
| OutputParsed.

Record SpecEnv : Type := {
  systems : list string;
  engine_succeeds : bool;
  trace : list spec_event
}.

Definition emit (evs : list spec_event) (e : SpecEnv) : SpecEnv :=
  {| systems := systems e; engine_succeeds := engine_succeeds e;
     trace := trace e ++ evs |}.

Inductive SpecArray : Type :=
| Fields (fields : list (string * list spec_float))
| Values (values : list spec_float).

Inductive SpecInput : Type :=
| RawArrays (name : string) (n : nat)
| PrebuiltFiles (pname kname : string).

Record SpecSurvey : Type := { sv_input : SpecInput; sv_system : string; sv_name : string }.

Record SpecOutput : Type := { out_survey : SpecSurvey; out_fsample : spec_float }.

Definition required_fields : list string :=
  ["position"; "velocity"; "mass"; "age"; "metallicity"].

Definition SchemaError : exc_class := LibraryError "SchemaError" Exception.
Definition SystemNotFoundError : exc_class := LibraryError "SystemNotFoundError" Exception.
Definition EngineExecutionError : exc_class := LibraryError "EngineExecutionError" Exception.

(** Modelled from the spec: the array-based constructor of [Input] (section
    4.1), whose code is not among the sources. A required field missing, or
    two arrays of different lengths, is a [SchemaError]; nothing is written. *)
Definition spec_Input_arrays (a : list SpecArray) (name : string) (knorm : spec_float)
  (ngb : Z) (e : SpecEnv) : result SpecInput * SpecEnv :=
  match a with
  | [Fields fs; Values rho_pos; Values rho_vel] =>
      let n := length rho_pos in
      if forallb (fun k => existsb (fun kv => String.eqb (fst kv) k) fs) required_fields
         && forallb (fun kv => (length (snd kv) =? n)%nat) fs
         && (length rho_vel =? n)%nat
      then (Ok (RawArrays name n), e)
      else (Raise SchemaError None, e)
  | _ => (Raise SchemaError None, e)
  end.

(** Modelled from the spec: the constructor of [Input] on two paths (section
    4.1): the dataset is pre-built and nothing is validated or written. *)
Definition spec_Input_files (p k : string) (e : SpecEnv) : result SpecInput * SpecEnv :=
  (Ok (PrebuiltFiles p k), e).

(** Modelled from the spec: the constructor of [Survey] (sections 4.5 and 7):
    an unknown photometric system is a [SystemNotFoundError], raised before
    the engine is invoked. *)
Definition spec_Survey (i : SpecInput) (system name : string) (e : SpecEnv)
  : result SpecSurvey * SpecEnv :=
  if existsb (String.eqb system) (systems e)
  then (Ok {| sv_input := i; sv_system := system; sv_name := name |}, e)
  else (Raise SystemNotFoundError None, e).

(** Modelled from the spec: [Survey.make_survey] (sections 3, 4.3, 4.6 and 7).
    The control parameters are validated first, the sample fraction against
    the unit interval; only then are the files written and the engine run. *)
Definition spec_make_survey (s : SpecSurvey) (cmd : string) (fsample : spec_float)
  (kw : list (string * string)) (e : SpecEnv) : result SpecOutput * SpecEnv :=
  if negb (fsample_ok fsample) then (Raise ValueError (Some "fsample"), e)
  else
    let written :=
      match sv_input s with
      | RawArrays name _ => [WroteExchangeFiles name]
      | PrebuiltFiles _ _ => []
      end in
    let e1 := emit (written ++ [WroteParameterFile (sv_name s); EngineInvoked]) e in
    if engine_succeeds e
    then (Ok {| out_survey := s; out_fsample := fsample |}, emit [OutputParsed] e1)
    else (Raise EngineExecutionError None, e1).

#[local] Instance spec_pipeline : Pipeline := {|
  Array := SpecArray;
  Kwargs := list (string * string);
  InputT := SpecInput;
  SurveyT := SpecSurvey;
  OutputT := SpecOutput;
  Env := SpecEnv;
  DEFAULT_PSYS := "PS1";
  DEFAULT_CMD := "band1,band2-band3";
  Input_files := spec_Input_files;
  Input_arrays := spec_Input_arrays;
  Survey := spec_Survey;
  make_survey := spec_make_survey
|}.

(* ===================================================================== *)
(** * Concrete files, tables and calls *)
(* ===================================================================== *)

Definition iso0 : Isochrone := {| _Age := "Age"; _M_ini := "M_ini" |}.

Definition file_at (name : string) : IsochroneFile :=
  {| _isochrone := iso0; _path := Path_of_str name;
     _column_names := None; _data := None |}.

Definition no_files : World := {| files := ∅; io_log := [] |}.

Definition one_file (name content : string) : World :=
  {| files := <[name := content]> ∅; io_log := [] |}.

Definition float_0_019 : spec_float := S754_finite false 5476377146882523 (-58).
Definition float_minus_0_5 : spec_float := S754_finite true 4503599627370496 (-53).

Definition header_example : string :=
  "# isochrone" +:+ chr LF +:+ "# Age M_ini logL logT" +:+ chr LF +:+ "6.6 0.1 -2.9 3.4" +:+ chr LF.

Definition t0 : @Table mini_astropy :=
  {| colnames := ["Age"; "M_ini"; "logL"];
     rows := [[7; 2; 5]; [6; 9; -1]; [7; 1; 0]]%Z |}.

Definition t0_sorted : @Table mini_astropy :=
  {| colnames := ["Age"; "M_ini"; "logL"];
     rows := [[6; 9; -1]; [7; 1; 0]; [7; 2; 5]]%Z |}.

Definition table_text : string :=
  "# Age M_ini" +:+ chr LF +:+ "6 9" +:+ chr LF +:+ "7 1" +:+ chr LF.

Definition particles0 : list SpecArray :=
  let col := [S754_zero false; one64] in
  [Fields [("position", col); ("velocity", col); ("mass", col); ("age", col);
           ("metallicity", col)];
   Values col; Values col].

Definition env0 : SpecEnv := {| systems := ["PS1"]; engine_succeeds := true; trace := [] |}.

Definition call_arrays : @call spec_pipeline := default_call particles0 [].

Definition call_both : @call spec_pipeline :=
  set_names (Some "particles.ebf") (Some "kernels.ebf") call_arrays.

Definition float_1_5 : spec_float := S754_finite false 6755399441055744 (-52).


(* ===================================================================== *)
(* ===================================================================== *)
(** * Properties *)
(* ===================================================================== *)
(* ===================================================================== *)

#[local] Arguments Ascii.eqb : simpl never.
#[local] Arguments String.eqb : simpl never.

(* ===================================================================== *)
(** * Text *)
(* ===================================================================== *)

Lemma sapp_assoc (a b c : string) : (a +:+ b) +:+ c = a +:+ (b +:+ c).
Proof. induction a as [|x a IH]; simpl; [reflexivity | now rewrite IH]. Qed.

Lemma sapp_nil_r (a : string) : a +:+ "" = a.
Proof. induction a as [|x a IH]; simpl; [reflexivity | now rewrite IH]. Qed.

Lemma sapp_length (a b : string) :
  String.length (a +:+ b) = String.length a + String.length b.
Proof. induction a as [|x a IH]; simpl; [reflexivity | now rewrite IH]. Qed.

Lemma ascii_eqb_true (a b : ascii) : Ascii.eqb a b = true -> a = b.
Proof. apply Ascii.eqb_eq. Qed.

(* ===================================================================== *)
(** * The pattern of [metallicity] *)
(* ===================================================================== *)

Lemma metallicity_regex_eq : metallicity_regex = Ok the_regex.
Proof. reflexivity. Qed.

Lemma greedy_value (v : string) :
  no_LF v = true -> greedy (re_atoms ".dat") (v +:+ ".dat") = Some v.
Proof.
  induction v as [|c v IH]; intros H.
  - reflexivity.
  - unfold no_LF in H. simpl in H. apply andb_true_iff in H as [Hc Hv].
    change (String c v +:+ ".dat") with (String c (v +:+ ".dat")).
    cbn [greedy]. apply negb_true_iff in Hc. rewrite Hc.
    rewrite (IH Hv). reflexivity.
Qed.

Lemma findall_go_pass lb la before c r :
  match_here lb before = false ->
  findall_go lb la 0 before (String c r) = findall_go lb la 0 (String c before) r.
Proof. intros H. cbn [findall_go]. rewrite H. reflexivity. Qed.

Lemma findall_go_hit lb la before s g :
  match_here lb before = true -> greedy la s = Some g ->
  hd_error (findall_go lb la 0 before s) = Some g.
Proof.
  intros Hb Hg. destruct s as [|c r]; cbn [findall_go]; rewrite Hb, Hg; reflexivity.
Qed.

Lemma findall_template (v : string) :
  no_LF v = true ->
  hd_error (re_findall the_regex ("output_" +:+ v +:+ ".dat")) = Some v.
Proof.
  intros Hv. unfold re_findall, the_regex. cbn [lookbehind lookahead].
  change ("output_" +:+ v +:+ ".dat")
    with (String "o" (String "u" (String "t" (String "p" (String "u" (String "t"
           (String "_" (v +:+ ".dat")))))))).
  do 7 (rewrite findall_go_pass by reflexivity).
  apply findall_go_hit; [reflexivity | now apply greedy_value].
Qed.

Lemma contains_rev_app sub b x :
  contains sub x = true -> contains sub (String.rev_app b x) = true.
Proof.
  revert x. induction b as [|c b IH]; intros x H; simpl; [exact H|].
  apply IH. cbn [contains]. rewrite H. apply orb_true_r.
Qed.

Lemma match_here_lit c p s :
  match_here (Lit c :: p) s = true ->
  exists s', s = String c s' /\ match_here p s' = true.
Proof.
  destruct s as [|a s']; cbn [match_here atom_matches]; [discriminate|].
  intros [Ha Hp]%andb_true_iff. apply ascii_eqb_true in Ha. subst a. eauto.
Qed.

Lemma lookbehind_found (before : string) :
  match_here (rev (re_atoms "output_")) before = true ->
  exists b, before = "_tuptuo" +:+ b.
Proof.
  intros H.
  assert (E : rev (re_atoms "output_")
              = [Lit "_"; Lit "t"; Lit "u"; Lit "p"; Lit "t"; Lit "u"; Lit "o"]%char)
    by reflexivity.
  rewrite E in H. clear E.
  repeat (apply match_here_lit in H as (? & -> & H)).
  eexists. reflexivity.
Qed.

Lemma contains_after_lookbehind b s :
  contains "output_" (String.rev_app ("_tuptuo" +:+ b) s) = true.
Proof.
  change (String.rev_app ("_tuptuo" +:+ b) s)
    with (String.rev_app b ("output_" +:+ s)).
  apply (contains_rev_app "output_" b ("output_" +:+ s)). destruct s; reflexivity.
Qed.

Lemma findall_go_none skip before s :
  contains "output_" (String.rev_app before s) = false ->
  findall_go (rev (re_atoms "output_")) (re_atoms ".dat") skip before s = [].
Proof.
  revert skip before. induction s as [|c r IH]; intros skip before H.
  - cbn [findall_go].
    destruct (match_here (rev (re_atoms "output_")) before) eqn:Hb.
    + apply lookbehind_found in Hb as [b ->].
      rewrite contains_after_lookbehind in H. discriminate.
    + now destruct skip.
  - cbn [findall_go].
    destruct (match_here (rev (re_atoms "output_")) before) eqn:Hb.
    + apply lookbehind_found in Hb as [b ->].
      rewrite contains_after_lookbehind in H. discriminate.
    + destruct skip; apply IH; exact H.
Qed.

Lemma py_float_raises s c m : py_float s = Raise c m -> c = ValueError.
Proof.
  unfold py_float.
  destruct (drop_underscores _ _); [|intros [= <- _]; reflexivity].
  destruct (take_sign s0) as [neg body].
  destruct (_ || _); [discriminate|].
  destruct (String.eqb _ _); [discriminate|].
  destruct (parse_decimal body) as [[m0 e]|]; [discriminate|].
  intros [= <- _]. reflexivity.
Qed.

Section MetallicityFacts.
Context {astropy : Astropy}.

Lemma metallicity_unfold (self : IsochroneFile) :
  metallicity self =
  match re_findall the_regex (filename self) with
  | g :: _ => py_float g
  | [] => Raise IndexError None
  end.
Proof. reflexivity. Qed.

Lemma metallicity_value (self : IsochroneFile) (v : string) :
  filename self = "output_" +:+ v +:+ ".dat" -> no_LF v = true ->
  metallicity self = py_float v.
Proof.
  intros Hn Hv. rewrite metallicity_unfold, Hn.
  pose proof (findall_template v Hv) as H.
  destruct (re_findall _ _) as [|g l]; cbn in H; [discriminate|].
  now injection H as ->.
Qed.

End MetallicityFacts.

(* ===================================================================== *)
(** * Stripping *)
(* ===================================================================== *)

Lemma all_chars_app f a b :
  all_chars f (a +:+ b) = all_chars f a && all_chars f b.
Proof.
  induction a as [|x a IH]; simpl; [reflexivity|].
  now rewrite IH, andb_assoc.
Qed.

Lemma all_chars_weaken (f g : ascii -> bool) s :
  (forall c, f c = true -> g c = true) -> all_chars f s = true -> all_chars g s = true.
Proof.
  intros Hfg. induction s as [|x s IH]; simpl; [reflexivity|].
  intros [Hx Hs]%andb_true_iff. rewrite (Hfg _ Hx), (IH Hs). reflexivity.
Qed.

Lemma lstrip_by_stop f c r : f c = false -> lstrip_by f (String c r) = String c r.
Proof. intros H. simpl. now rewrite H. Qed.

Lemma lstrip_by_spaces c r :
  Ascii.eqb SP c = false -> forall n,
  lstrip_by (Ascii.eqb SP) (spaces n +:+ String c r) = String c r.
Proof.
  intros H n. induction n as [|n IH]; simpl.
  - now rewrite H.
  - exact IH.
Qed.

Lemma rstrip_by_keep f s :
  all_chars (fun c => negb (f c)) s = true -> rstrip_by f s = s.
Proof.
  induction s as [|a r IH]; simpl; [reflexivity|].
  intros [Ha Hr]%andb_true_iff. rewrite (IH Hr).
  apply negb_true_iff in Ha. rewrite Ha. now destruct r.
Qed.

Lemma rstrip_by_last_keep f s c :
  f c = false -> rstrip_by f (s +:+ chr c) = s +:+ chr c.
Proof.
  intros Hc. induction s as [|a r IH]; simpl.
  - now rewrite Hc.
  - change (r +:+ chr c) with (r +:+ chr c) in *. rewrite IH.
    destruct r; reflexivity.
Qed.

Lemma rstrip_by_last_drop f s c :
  f c = true -> rstrip_by f (s +:+ chr c) = rstrip_by f s.
Proof.
  intros Hc. induction s as [|a r IH]; simpl.
  - now rewrite Hc.
  - now rewrite IH.
Qed.

(* ===================================================================== *)
(** * Replacing, counting, splitting *)
(* ===================================================================== *)

Lemma prefix_nil s : String.prefix "" s = true.
Proof. now destruct s. Qed.

Lemma prefix_cons a s b r :
  String.prefix (String a s) (String b r) = Ascii.eqb a b && String.prefix s r.
Proof.
  simpl. destruct (ascii_dec a b) as [->|Hne].
  - now rewrite Ascii.eqb_refl.
  - apply Ascii.eqb_neq in Hne. now rewrite Hne.
Qed.

Lemma prefix_chr a b r : String.prefix (chr a) (String b r) = Ascii.eqb a b.
Proof. unfold chr. rewrite prefix_cons, prefix_nil. apply andb_true_r. Qed.

Lemma replace_tab s : replace (chr TAB) " " s = untab s.
Proof.
  unfold replace. induction s as [|a r IH]; [reflexivity|].
  cbn [replace_go untab]. rewrite prefix_chr.
  change (String.length (chr TAB) - 1) with 0. rewrite IH.
  rewrite (Ascii.eqb_sym TAB a). destruct (Ascii.eqb a TAB); reflexivity.
Qed.

Lemma split_space_cons a r :
  split " " (String a r) =
  if Ascii.eqb SP a then "" :: split " " r else cons_first a (split " " r).
Proof. unfold split. cbn [split_go]. change " " with (chr SP). now rewrite prefix_chr. Qed.

(** The double space. *)
Lemma prefix_2sp s : String.prefix "  " s = starts2 s.
Proof.
  destruct s as [|a r]; [reflexivity|].
  change "  " with (String SP (chr SP)). rewrite prefix_cons. unfold starts2.
  destruct r as [|b r]; [reflexivity|].
  rewrite prefix_chr. cbn [starts_with]. now rewrite (Ascii.eqb_sym b SP).
Qed.

Lemma replace2_nil : replace "  " " " "" = "".
Proof. reflexivity. Qed.

Lemma replace2_one a : replace "  " " " (chr a) = chr a.
Proof.
  unfold replace, chr. cbn [replace_go]. rewrite prefix_2sp. cbn.
  now rewrite andb_false_r.
Qed.

Lemma replace2_cons a b r :
  replace "  " " " (String a (String b r)) =
  if Ascii.eqb SP a && Ascii.eqb b SP
  then String SP (replace "  " " " r)
  else String a (replace "  " " " (String b r)).
Proof.
  unfold replace at 1. cbn [replace_go]. rewrite prefix_2sp. cbn [starts2 starts_with].
  destruct (Ascii.eqb SP a && Ascii.eqb b SP); reflexivity.
Qed.

Lemma count2_nil : count "  " "" = 0.
Proof. reflexivity. Qed.

Lemma count2_one a : count "  " (chr a) = 0.
Proof.
  unfold count, chr. cbn [count_go]. rewrite prefix_2sp. cbn. now rewrite andb_false_r.
Qed.

Lemma count2_cons a b r :
  count "  " (String a (String b r)) =
  if Ascii.eqb SP a && Ascii.eqb b SP
  then S (count "  " r)
  else count "  " (String b r).
Proof.
  unfold count at 1. cbn [count_go]. rewrite prefix_2sp. cbn [starts2 starts_with].
  destruct (Ascii.eqb SP a && Ascii.eqb b SP); reflexivity.
Qed.

(** Induction two characters at a time. *)
Lemma string_ind2 (P : string -> Prop) :
  P "" -> (forall a, P (chr a)) ->
  (forall a b r, P r -> P (String b r) -> P (String a (String b r))) ->
  forall s, P s.
Proof.
  intros H0 H1 H2 s.
  assert (H : P s /\ forall a, P (String a s)).
  { induction s as [|b r [IHr IHbr]].
    - split; [exact H0 | exact H1].
    - split; [apply IHbr | intros a; apply H2; [exact IHr | apply IHbr]]. }
  apply H.
Qed.

Lemma squeeze_starts a s :
  starts_with SP (squeeze (String a s)) = Ascii.eqb a SP.
Proof.
  cbn [squeeze]. destruct (Ascii.eqb a SP) eqn:Ha; cbn [andb].
  - destruct (starts_with SP (squeeze s)) eqn:Hs; [exact Hs|]. cbn. exact Ha.
  - cbn. exact Ha.
Qed.

Lemma squeeze_sp_sp r : squeeze (String SP (String SP r)) = squeeze (String SP r).
Proof.
  change (squeeze (String SP (String SP r)))
    with (if Ascii.eqb SP SP && starts_with SP (squeeze (String SP r))
          then squeeze (String SP r) else String SP (squeeze (String SP r))).
  now rewrite squeeze_starts.
Qed.

Lemma squeeze_congr a x y : squeeze x = squeeze y -> squeeze (String a x) = squeeze (String a y).
Proof. intros H. cbn [squeeze]. now rewrite H. Qed.

Lemma squeeze_replace2 s : squeeze (replace "  " " " s) = squeeze s.
Proof.
  induction s as [| a | a b r IHr IHbr] using string_ind2.
  - reflexivity.
  - now rewrite replace2_one.
  - rewrite replace2_cons.
    destruct (Ascii.eqb SP a && Ascii.eqb b SP) eqn:E.
    + apply andb_true_iff in E as [Ha Hb].
      apply ascii_eqb_true in Ha, Hb. subst a b.
      rewrite squeeze_sp_sp. now apply squeeze_congr.
    + now apply squeeze_congr.
Qed.

Lemma squeeze_fixed s : count "  " s = 0 -> squeeze s = s.
Proof.
  induction s as [| a | a b r IHr IHbr] using string_ind2.
  - reflexivity.
  - intros _. unfold chr. cbn. now rewrite andb_false_r.
  - rewrite count2_cons.
    destruct (Ascii.eqb SP a && Ascii.eqb b SP) eqn:E; [discriminate|].
    intros H. specialize (IHbr H).
    change (squeeze (String a (String b r)))
      with (if Ascii.eqb a SP && starts_with SP (squeeze (String b r))
            then squeeze (String b r) else String a (squeeze (String b r))).
    rewrite squeeze_starts, IHbr, (Ascii.eqb_sym a SP), E. reflexivity.
Qed.

Lemma replace2_length s :
  String.length (replace "  " " " s) <= String.length s /\
  (count "  " s <> 0 -> String.length (replace "  " " " s) < String.length s).
Proof.
  induction s as [| a | a b r IHr IHbr] using string_ind2.
  - split; [reflexivity | intros H; now elim H].
  - rewrite replace2_one, count2_one. split; [reflexivity | intros H; now elim H].
  - rewrite replace2_cons, count2_cons.
    destruct (Ascii.eqb SP a && Ascii.eqb b SP); cbn [String.length] in *; lia.
Qed.

Lemma collapse_loop_squeeze fuel s :
  String.length s <= fuel -> collapse_loop fuel s = squeeze s.
Proof.
  revert s. induction fuel as [|n IH]; intros s Hlen.
  - destruct s; [reflexivity | cbn in Hlen; lia].
  - cbn [collapse_loop]. destruct (count "  " s =? 0) eqn:E.
    + apply Nat.eqb_eq in E. symmetry. now apply squeeze_fixed.
    + apply Nat.eqb_neq in E. rewrite IH.
      * apply squeeze_replace2.
      * pose proof (replace2_length s) as [_ H]. specialize (H E). lia.
Qed.

(* ===================================================================== *)
(** * Names and separators *)
(* ===================================================================== *)

Lemma is_name_inv n :
  is_name n = true ->
  all_chars plain n = true /\ exists c r, n = String c r /\ plain c = true.
Proof.
  unfold is_name. intros [Hne Hall]%andb_true_iff.
  split; [exact Hall|].
  destruct n as [|c r]; [discriminate|].
  cbn [all_chars] in Hall. apply andb_true_iff in Hall as [Hc _]. eauto.
Qed.

Lemma plain_inv c :
  plain c = true ->
  Ascii.eqb c SP = false /\ Ascii.eqb c TAB = false /\ Ascii.eqb c LF = false.
Proof.
  unfold plain, blank. intros [H1 H2]%andb_true_iff.
  apply negb_true_iff in H1, H2. apply orb_false_iff in H1 as [? ?]. auto.
Qed.

Lemma untab_app a b : untab (a +:+ b) = untab a +:+ untab b.
Proof. induction a as [|x a IH]; simpl; [reflexivity | now rewrite IH]. Qed.

Lemma untab_plain n : all_chars plain n = true -> untab n = n.
Proof.
  induction n as [|c n IH]; simpl; [reflexivity|].
  intros [Hc Hn]%andb_true_iff. apply plain_inv in Hc as (_ & -> & _).
  now rewrite IH.
Qed.

Lemma untab_blank s : all_chars blank s = true -> untab s = spaces (String.length s).
Proof.
  induction s as [|c s IH]; simpl; [reflexivity|].
  intros [Hc Hs]%andb_true_iff. rewrite (IH Hs). f_equal.
  unfold blank in Hc. apply orb_true_iff in Hc as [H|H].
  - apply ascii_eqb_true in H. subst c. reflexivity.
  - now rewrite H.
Qed.

Lemma squeeze_plain_app n x : all_chars plain n = true -> squeeze (n +:+ x) = n +:+ squeeze x.
Proof.
  induction n as [|c n IH]; [reflexivity|].
  cbn [all_chars]. intros [Hc Hn]%andb_true_iff.
  change (String c n +:+ x) with (String c (n +:+ x)).
  cbn [squeeze]. apply plain_inv in Hc as (-> & _). cbn [andb].
  now rewrite (IH Hn).
Qed.

Lemma squeeze_spaces k x :
  starts_with SP (squeeze x) = false ->
  squeeze (spaces (S k) +:+ x) = String SP (squeeze x).
Proof.
  intros Hx. induction k as [|k IH].
  - change (spaces 1 +:+ x) with (String SP x). cbn [squeeze]. now rewrite Hx, andb_false_r.
  - change (spaces (S (S k)) +:+ x) with (String SP (spaces (S k) +:+ x)).
    cbn [squeeze]. rewrite IH. reflexivity.
Qed.

Lemma split_plain n : all_chars plain n = true -> split " " n = [n].
Proof.
  induction n as [|c n IH]; [reflexivity|].
  cbn [all_chars]. intros [Hc Hn]%andb_true_iff.
  rewrite split_space_cons, (IH Hn). apply plain_inv in Hc as (Hc & _).
  rewrite Ascii.eqb_sym, Hc. reflexivity.
Qed.

Lemma split_plain_app n r :
  all_chars plain n = true -> split " " (n +:+ String SP r) = n :: split " " r.
Proof.
  induction n as [|c n IH].
  - intros _. change ("" +:+ String SP r) with (String SP r).
    rewrite split_space_cons, Ascii.eqb_refl. reflexivity.
  - cbn [all_chars]. intros [Hc Hn]%andb_true_iff.
    change (String c n +:+ String SP r) with (String c (n +:+ String SP r)).
    rewrite split_space_cons, (IH Hn). apply plain_inv in Hc as (Hc & _).
    rewrite Ascii.eqb_sym, Hc. reflexivity.
Qed.

Lemma names_line_head n1 rest :
  is_name n1 = true ->
  exists c r, names_line n1 rest = String c r /\ plain c = true.
Proof.
  intros (_ & c & r & -> & Hc)%is_name_inv.
  destruct rest as [|[sep n] rest]; cbn [names_line]; eauto.
Qed.

Lemma names_line_no_LF rest : forall n1,
  is_name n1 = true -> well_formed_rest rest = true ->
  no_LF (names_line n1 rest) = true.
Proof.
  assert (Hp : forall s, all_chars plain s = true -> no_LF s = true).
  { intros s. apply all_chars_weaken. intros c Hc. now apply andb_true_iff in Hc as [_ ?]. }
  assert (Hb : forall s, all_chars blank s = true -> no_LF s = true).
  { intros s. apply all_chars_weaken. intros c Hc. unfold blank in Hc.
    apply orb_true_iff in Hc as [H|H]; apply ascii_eqb_true in H; subst c; reflexivity. }
  induction rest as [|[sep n] rest IH]; intros n1 Hn1 Hrest; cbn [names_line].
  - apply Hp. now apply is_name_inv in Hn1 as [? _].
  - cbn [well_formed_rest forallb fst snd] in Hrest.
    apply andb_true_iff in Hrest as [[Hsep Hn]%andb_true_iff Hrest].
    unfold no_LF. rewrite !all_chars_app.
    apply is_name_inv in Hn1 as [Hn1 _].
    unfold is_separator in Hsep. apply andb_true_iff in Hsep as [_ Hsep].
    fold (no_LF n1) (no_LF sep) (no_LF (names_line n rest)).
    now rewrite (Hp _ Hn1), (Hb _ Hsep), (IH n Hn Hrest).
Qed.

Lemma names_parsed rest : forall n1,
  is_name n1 = true -> well_formed_rest rest = true ->
  split " " (squeeze (untab (names_line n1 rest))) = n1 :: List.map snd rest.
Proof.
  induction rest as [|[sep n] rest IH]; intros n1 Hn1 Hrest; cbn [names_line List.map snd].
  - apply is_name_inv in Hn1 as [Hn1 _].
    rewrite (untab_plain _ Hn1).
    rewrite <- (sapp_nil_r n1) at 1. rewrite (squeeze_plain_app _ _ Hn1).
    cbn [squeeze]. rewrite sapp_nil_r. now apply split_plain.
  - cbn [well_formed_rest forallb fst snd] in Hrest.
    apply andb_true_iff in Hrest as [[Hsep Hn]%andb_true_iff Hrest].
    specialize (IH n Hn Hrest).
    apply is_name_inv in Hn1 as [Hn1 _].
    unfold is_separator in Hsep. apply andb_true_iff in Hsep as [Hne Hsep].
    rewrite !untab_app, (untab_plain _ Hn1), (untab_blank _ Hsep).
    rewrite (squeeze_plain_app _ _ Hn1).
    destruct sep as [|x sep]; [discriminate|]. cbn [String.length].
    rewrite squeeze_spaces.
    + rewrite (split_plain_app _ _ Hn1), IH. reflexivity.
    + destruct (names_line_head n rest Hn) as (c & r & -> & Hc).
      cbn [untab]. rewrite squeeze_starts.
      apply plain_inv in Hc as (Hsp & Htab & _). now rewrite Htab.
Qed.

(* ===================================================================== *)
(** * The header line *)
(* ===================================================================== *)

Lemma parse_header_line lead n1 rest :
  is_name n1 = true -> is_comment n1 = false -> well_formed_rest rest = true ->
  parse_header (header_line lead n1 rest) = n1 :: List.map snd rest.
Proof.
  intros Hn1 Hhash Hrest.
  pose proof (names_line_no_LF rest n1 Hn1 Hrest) as HnoLF.
  destruct (names_line_head n1 rest Hn1) as (c & r & EL & Hc).
  assert (Hc' : Ascii.eqb HASH c = false).
  { apply is_name_inv in Hn1 as (_ & c0 & r0 & -> & _).
    destruct rest as [|[sep n] rest]; cbn [names_line] in EL; injection EL as -> _;
      rewrite Ascii.eqb_sym; exact Hhash. }
  apply plain_inv in Hc as (Hsp & Htab & Hlf).
  unfold parse_header, header_line.
  set (L := names_line n1 rest) in *.
  (* strip('#') *)
  assert (E1 : strip HASH (String HASH (spaces lead +:+ L +:+ chr LF))
               = spaces lead +:+ L +:+ chr LF).
  { unfold strip, strip_by. cbn [lstrip_by]. rewrite Ascii.eqb_refl.
    assert (El : lstrip_by (Ascii.eqb HASH) (spaces lead +:+ L +:+ chr LF)
                 = spaces lead +:+ L +:+ chr LF).
    { destruct lead as [|k].
      - change (spaces 0 +:+ L +:+ chr LF) with (L +:+ chr LF). rewrite EL.
        apply lstrip_by_stop. exact Hc'.
      - apply lstrip_by_stop. reflexivity. }
    rewrite El, <- sapp_assoc. apply rstrip_by_last_keep. reflexivity. }
  rewrite E1.
  (* strip(' ') *)
  assert (E2 : strip SP (spaces lead +:+ L +:+ chr LF) = L +:+ chr LF).
  { unfold strip, strip_by. rewrite EL.
    change (String c r +:+ chr LF) with (String c (r +:+ chr LF)).
    rewrite lstrip_by_spaces by (rewrite Ascii.eqb_sym; exact Hsp).
    change (String c (r +:+ chr LF)) with (String c r +:+ chr LF).
    apply rstrip_by_last_keep. reflexivity. }
  rewrite E2.
  (* strip('\n') *)
  assert (E3 : strip LF (L +:+ chr LF) = L).
  { unfold strip, strip_by. rewrite EL.
    change (String c r +:+ chr LF) with (String c (r +:+ chr LF)).
    rewrite lstrip_by_stop by (rewrite Ascii.eqb_sym; exact Hlf).
    change (String c (r +:+ chr LF)) with (String c r +:+ chr LF).
    rewrite rstrip_by_last_drop by reflexivity.
    rewrite <- EL. apply rstrip_by_keep.
    revert HnoLF. unfold no_LF. apply all_chars_weaken.
    intros x Hx. now rewrite Ascii.eqb_sym. }
  rewrite E3, replace_tab, collapse_loop_squeeze by reflexivity.
  now apply names_parsed.
Qed.

(* ===================================================================== *)
(** * Reading up to the header *)
(* ===================================================================== *)

Lemma readline_line c rest :
  no_LF c = true -> readline (c +:+ chr LF +:+ rest) = (c +:+ chr LF, rest).
Proof.
  induction c as [|x c IH]; intros H.
  - reflexivity.
  - unfold no_LF in H. cbn [all_chars] in H. apply andb_true_iff in H as [Hx Hc].
    apply negb_true_iff in Hx.
    change (String x c +:+ chr LF +:+ rest) with (String x (c +:+ chr LF +:+ rest)).
    cbn [readline]. rewrite Hx, (IH Hc). reflexivity.
Qed.

Lemma readline_comment f : is_comment (fst (readline f)) = is_comment f.
Proof.
  destruct f as [|a r]; [reflexivity|]. cbn [readline].
  destruct (Ascii.eqb a LF) eqn:E.
  - apply ascii_eqb_true in E. subst a. reflexivity.
  - destruct (readline r). reflexivity.
Qed.

Lemma header_loop_block cs : forall fuel _temp header tail,
  is_comment _temp = true ->
  forallb no_LF cs = true ->
  is_comment tail = false ->
  String.length (comment_block cs +:+ tail) < fuel ->
  header_loop fuel _temp header (comment_block cs +:+ tail) = last_comment cs header.
Proof.
  induction cs as [|c cs IH]; intros fuel _temp header tail Ht Hcs Htail Hfuel.
  - change (comment_block [] +:+ tail) with tail in *.
    destruct fuel as [|n]; [lia|]. cbn [header_loop last_comment]. rewrite Ht.
    pose proof (readline_comment tail) as Hl.
    destruct (readline tail) as [line f']. cbn [fst] in Hl. rewrite Htail in Hl.
    rewrite Hl. destruct n; cbn [header_loop]; [reflexivity | now rewrite Hl].
  - cbn [forallb] in Hcs. apply andb_true_iff in Hcs as [Hc Hcs].
    destruct fuel as [|n]; [lia|]. cbn [header_loop last_comment]. rewrite Ht.
    assert (E : comment_block (c :: cs) +:+ tail
                = String HASH c +:+ chr LF +:+ (comment_block cs +:+ tail)).
    { cbn [comment_block].
      change (String HASH (c +:+ chr LF +:+ comment_block cs) +:+ tail)
        with (String HASH ((c +:+ chr LF +:+ comment_block cs) +:+ tail)).
      change (String HASH c +:+ chr LF +:+ comment_block cs +:+ tail)
        with (String HASH (c +:+ chr LF +:+ comment_block cs +:+ tail)).
      now rewrite !sapp_assoc. }
    rewrite E in *.
    pose proof (readline_line (String HASH c) (comment_block cs +:+ tail)) as R.
    change (String HASH c +:+ chr LF +:+ (comment_block cs +:+ tail))
      with (String HASH (c +:+ chr LF +:+ (comment_block cs +:+ tail))) in *.
    rewrite R by exact Hc.
    change (is_comment (String HASH c +:+ chr LF)) with true. cbn iota.
    apply IH; try assumption; [reflexivity|].
    cbn [String.length] in Hfuel. rewrite !sapp_length in Hfuel.
    rewrite sapp_length. lia.
Qed.

Lemma readline_length f :
  String.length f = String.length (fst (readline f)) + String.length (snd (readline f)).
Proof.
  induction f as [|a r IH]; [reflexivity|]. cbn [readline].
  destruct (Ascii.eqb a LF); [reflexivity|].
  destruct (readline r) as [l r']. cbn [fst snd String.length] in *. lia.
Qed.

Lemma header_loop_stop fuel _temp header f :
  is_comment _temp = false -> header_loop fuel _temp header f = header.
Proof. intros H. destruct fuel; cbn [header_loop]; [reflexivity | now rewrite H]. Qed.

(** The reading loop never runs out of turns: any two budgets above the
    length of the stream give the same result. *)
Lemma header_loop_fuel n : forall m _temp header f,
  String.length f < n -> String.length f < m ->
  header_loop n _temp header f = header_loop m _temp header f.
Proof.
  induction n as [|n IH]; intros m _temp header f Hn Hm; [lia|].
  destruct m as [|m]; [lia|]. cbn [header_loop].
  destruct (is_comment _temp); [|reflexivity].
  pose proof (readline_length f) as Hlen.
  destruct (readline f) as [line f']. cbn [fst snd] in Hlen.
  destruct (is_comment line) eqn:Hline.
  - destruct line as [|c line]; [discriminate|]. cbn [String.length] in Hlen.
    apply IH; lia.
  - now rewrite !header_loop_stop.
Qed.

(* ===================================================================== *)
(** * The object *)
(* ===================================================================== *)

Lemma comment_block_app a b : comment_block (a ++ b) = comment_block a +:+ comment_block b.
Proof.
  induction a as [|c a IH]; [reflexivity|].
  cbn [app comment_block]. rewrite IH.
  change (String HASH (c +:+ chr LF +:+ comment_block a) +:+ comment_block b)
    with (String HASH ((c +:+ chr LF +:+ comment_block a) +:+ comment_block b)).
  now rewrite !sapp_assoc.
Qed.

Lemma last_comment_app a c header :
  last_comment (a ++ [c]) header = Some (String HASH (c +:+ chr LF)).
Proof. revert header. induction a as [|x a IH]; intros header; [reflexivity | apply IH]. Qed.

Lemma no_LF_spaces n : no_LF (spaces n) = true.
Proof. induction n; [reflexivity | exact IHn]. Qed.

Lemma read_header_found cs lead n1 rest tail :
  forallb no_LF cs = true ->
  is_name n1 = true -> well_formed_rest rest = true ->
  is_comment tail = false ->
  read_header (comment_block cs +:+ header_line lead n1 rest +:+ tail)
  = Some (header_line lead n1 rest).
Proof.
  intros Hcs Hn1 Hrest Htail.
  set (h := spaces lead +:+ names_line n1 rest).
  assert (Eh : header_line lead n1 rest = comment_block [h]).
  { unfold header_line, h. cbn [comment_block]. now rewrite sapp_nil_r, sapp_assoc. }
  assert (Hh : no_LF h = true).
  { unfold h, no_LF. rewrite all_chars_app.
    fold (no_LF (spaces lead)) (no_LF (names_line n1 rest)).
    now rewrite no_LF_spaces, names_line_no_LF. }
  rewrite <- sapp_assoc, Eh, <- comment_block_app.
  unfold read_header. rewrite header_loop_block.
  - rewrite last_comment_app. cbn [comment_block]. now rewrite sapp_nil_r.
  - reflexivity.
  - rewrite forallb_app, Hcs. cbn [forallb]. now rewrite Hh.
  - exact Htail.
  - lia.
Qed.

Lemma read_header_missing text : is_comment text = false -> read_header text = None.
Proof.
  intros H. unfold read_header.
  apply (header_loop_block [] (S (String.length text)) "#" None text);
    [reflexivity | reflexivity | exact H | cbn; lia].
Qed.

Lemma join_names_line n1 names :
  join " " (n1 :: names) = names_line n1 (List.map (pair " ") names).
Proof.
  revert n1. induction names as [|n names IH]; intros n1; [reflexivity|].
  cbn [List.map names_line]. rewrite <- IH. reflexivity.
Qed.

Lemma well_formed_plain names :
  forallb is_name names = true -> well_formed_rest (List.map (pair " ") names) = true.
Proof.
  induction names as [|n names IH]; [reflexivity|].
  cbn [forallb List.map well_formed_rest fst snd].
  intros [Hn Hs]%andb_true_iff. rewrite Hn. cbn [andb]. exact (IH Hs).
Qed.

Lemma map_snd_pair (names : list string) : List.map snd (List.map (pair " ") names) = names.
Proof. induction names as [|n names IH]; [reflexivity|]. cbn. now rewrite IH. Qed.

Section ObjectFacts.
Context {astropy : Astropy}.

Lemma column_names_cached (self : IsochroneFile) w v :
  _column_names self = Some v -> column_names self w = (Ok (Some v), self, w).
Proof. intros H. unfold column_names. now rewrite H. Qed.

Lemma data_cached (self : IsochroneFile) w t :
  _data self = Some t -> data self w = (Ok (Some t), self, w).
Proof. intros H. unfold data. now rewrite H. Qed.

Lemma column_names_load (self : IsochroneFile) w content :
  _column_names self = None ->
  files w !! Path_str (_path self) = Some content ->
  column_names self w =
  match read_header (universal_newlines content) with
  | Some header =>
      (Ok (Some (parse_header header)),
       set_column_names (Some (parse_header header)) self,
       log_event (EvOpen (Path_str (_path self))) w)
  | None =>
      (Raise UnboundLocalError None, self, log_event (EvOpen (Path_str (_path self))) w)
  end.
Proof.
  intros Hc Hf. unfold column_names, _load_column_names, _open. rewrite Hc, Hf.
  destruct (read_header _); reflexivity.
Qed.


(** A successful read of the column names leaves them in the cache, touches
    no other attribute, and logs nothing but the opening of the file. *)
Lemma column_names_ok (self self' : IsochroneFile) w w' r :
  column_names self w = (Ok r, self', w') ->
  exists v, r = Some v /\ _column_names self' = Some v /\
            _data self' = _data self /\ _path self' = _path self /\
            loads m_data (io_log w') = loads m_data (io_log w).
Proof.
  unfold column_names. destruct (_column_names self) as [v|] eqn:Hc.
  - intros [= <- <- <-]. eauto 6.
  - unfold _load_column_names, _open.
    destruct (files w !! _) as [content|]; [|discriminate].
    destruct (read_header _) as [h|]; [|discriminate].
    intros [= <- <- <-]. eexists. repeat split.
    unfold loads, log_event. cbn [io_log]. rewrite List.filter_app. cbn.
    now rewrite app_nil_r.
Qed.

Lemma column_names_any (self self' : IsochroneFile) w w' r :
  column_names self w = (r, self', w') ->
  _data self' = _data self /\ _path self' = _path self /\
  loads m_data (io_log w') = loads m_data (io_log w) /\
  (forall v, _column_names self = Some v -> self' = self /\ w' = w).
Proof.
  unfold column_names. destruct (_column_names self) as [v|] eqn:Hc.
  - intros [= <- <- <-]. repeat split; congruence.
  - unfold _load_column_names, _open.
    assert (E : loads m_data (io_log (log_event (EvOpen (Path_str (_path self))) w))
                = loads m_data (io_log w)).
    { unfold loads, log_event. cbn [io_log]. rewrite List.filter_app. cbn.
      now rewrite app_nil_r. }
    destruct (files w !! _) as [content|].
    + destruct (read_header _) as [h|]; intros [= <- <- <-];
        repeat split; try exact E; discriminate.
    + intros [= <- <- <-]. repeat split; try exact E; discriminate.
Qed.

Lemma data_any (self self' : IsochroneFile) w w' r :
  data self w = (r, self', w') ->
  (forall v, _column_names self = Some v ->
     _column_names self' = Some v /\
     loads m_column_names (io_log w') = loads m_column_names (io_log w)) /\
  (forall t, _data self = Some t -> self' = self /\ w' = w).
Proof.
  unfold data. destruct (_data self) as [t|] eqn:Hd.
  - intros [= <- <- <-]. split; [auto | intros; auto].
  - intros H. split; [|discriminate]. intros v Hv. revert H.
    unfold _load_data. rewrite (column_names_cached self w v Hv).
    assert (E : loads m_column_names (io_log (log_event (EvRead (Path_str (_path self))) w))
                = loads m_column_names (io_log w)).
    { unfold loads, log_event. cbn [io_log]. rewrite List.filter_app. cbn.
      now rewrite app_nil_r. }
    destruct (ascii_read _ _ _); intros [= <- <- <-]; split; (exact Hv || exact E).
Qed.

Lemma data_ok (self self' : IsochroneFile) w w' r :
  data self w = (Ok r, self', w') ->
  exists t, r = Some t /\ _data self' = Some t.
Proof.
  unfold data. destruct (_data self) as [t|] eqn:Hd.
  - intros [= <- <- <-]. eauto.
  - unfold _load_data.
    destruct (column_names self w) as [[[names|c m] self1] w1]; [|discriminate].
    destruct (ascii_read _ _ _); [|discriminate].
    intros [= <- <- <-]. eauto.
Qed.

(** Reading any attribute keeps what a lazy attribute has cached, and adds no
    access of the kind that computes it. *)
Lemma getattr_keeps (m m' : member) (self self' : IsochroneFile) w w' v r :
  cached m self = Some v ->
  getattr m' self w = (r, self', w') ->
  cached m self' = Some v /\ loads m (io_log w') = loads m (io_log w).
Proof.
  intros Hc. destruct m; try discriminate Hc.
  - (* the column names are cached *)
    cbn [cached] in Hc. destruct (_column_names self) as [l|] eqn:Hl; [|discriminate].
    destruct m'; cbn [getattr]; try (intros [= <- <- <-]; cbn [cached]; now rewrite Hl).
    + rewrite (column_names_cached self w l Hl). intros [= <- <- <-].
      cbn [cached]. now rewrite Hl.
    + destruct (data self w) as [[r0 s0] w0] eqn:Hd. intros [= <- <- <-].
      apply data_any in Hd as [Hd _]. destruct (Hd l Hl) as [H1 H2].
      cbn [cached]. now rewrite H1.
  - (* the data are cached *)
    cbn [cached] in Hc. destruct (_data self) as [t|] eqn:Ht; [|discriminate].
    destruct m'; cbn [getattr]; try (intros [= <- <- <-]; cbn [cached]; now rewrite Ht).
    + destruct (column_names self w) as [[r0 s0] w0] eqn:Hn. intros [= <- <- <-].
      apply column_names_any in Hn as (H1 & _ & H2 & _).
      cbn [cached]. now rewrite H1, Ht.
    + rewrite (data_cached self w t Ht). intros [= <- <- <-].
      cbn [cached]. now rewrite Ht.
Qed.

Lemma getattr_cached (m : member) (self : IsochroneFile) w v :
  cached m self = Some v -> getattr m self w = (Ok v, self, w).
Proof.
  destruct m; try discriminate; cbn [cached getattr].
  - destruct (_column_names self) as [l|] eqn:Hl; [|discriminate].
    intros [= <-]. now rewrite (column_names_cached self w l Hl).
  - destruct (_data self) as [t|] eqn:Ht; [|discriminate].
    intros [= <-]. now rewrite (data_cached self w t Ht).
Qed.

Lemma run_keeps (m : member) v acts : forall (self : IsochroneFile) w,
  cached m self = Some v ->
  cached m (fst (run acts self w)) = Some v /\
  loads m (io_log (snd (run acts self w))) = loads m (io_log w).
Proof.
  induction acts as [|[m'|fs] acts IH]; intros self w Hc; cbn [run].
  - auto.
  - destruct (getattr m' self w) as [[r self1] w1] eqn:Hg.
    destruct (getattr_keeps m m' self self1 w w1 v r Hc Hg) as [H1 H2].
    destruct (IH self1 w1 H1) as [H3 H4]. split; [exact H3 | congruence].
  - destruct (IH self {| files := fs; io_log := io_log w |} Hc) as [H3 H4].
    split; [exact H3 | exact H4].
Qed.

Lemma getattr_ok_cached (m : member) (self self' : IsochroneFile) w w' v :
  m = m_column_names \/ m = m_data ->
  getattr m self w = (Ok v, self', w') -> cached m self' = Some v.
Proof.
  intros [-> | ->]; cbn [getattr cached].
  - destruct (column_names self w) as [[[r|c msg] s1] w1] eqn:Hn; [|discriminate].
    intros [= <- <- <-]. apply column_names_ok in Hn as (l & -> & -> & _). reflexivity.
  - destruct (data self w) as [[[r|c msg] s1] w1] eqn:Hd; [|discriminate].
    intros [= <- <- <-]. apply data_ok in Hd as (t & -> & ->). reflexivity.
Qed.

Lemma init_inv (args : list pyobj) (iso : option Isochrone) w obj w' :
  __init__ args iso w = (Ok obj, w') ->
  exists i a0 rest p,
    iso = Some i /\ args = a0 :: rest /\ length rest <= 1 /\ pathlib_Path a0 = Ok p /\
    obj = {| _isochrone := i; _path := p; _column_names := None; _data := None |} /\
    (rest = [] -> w' = w).
Proof.
  unfold __init__. destruct iso as [i|]; [|discriminate].
  destruct args as [|a0 rest]; [discriminate|].
  destruct rest as [|a1 [|a2 rest]]; cbn [length Nat.eqb orb].
  - destruct (pathlib_Path a0) as [p|] eqn:Hp; [|discriminate].
    intros [= <- <-]. exists i, a0, [], p. repeat split; auto.
  - destruct (pathlib_Path a0) as [p|] eqn:Hp; [|discriminate].
    destruct (_write_table _ a1 w) as [[u|c m] w1]; [|discriminate].
    intros [= <- <-]. exists i, a0, [a1], p.
    repeat split; auto; discriminate.
  - discriminate.
Qed.

End ObjectFacts.

(* ===================================================================== *)
(** * The claims on the isochrone file *)
(* ===================================================================== *)

(** C1. For a file named [output_<value>.dat], where the value holds no line
    feed, [metallicity] is [float] of the text between [output_] and [.dat];
    [output_0.0190.dat] gives 0.019 and [output_-0.5.dat] gives -0.5. *)
Theorem metallicity_of_template {astropy : Astropy} (self : IsochroneFile) (v : string)
  (Hname : filename self = "output_" +:+ v +:+ ".dat")
  (Hvalue : no_LF v = true) :
  metallicity self = py_float v /\
  (v = "0.0190" -> metallicity self = Ok float_0_019) /\
  (v = "-0.5" -> metallicity self = Ok float_minus_0_5).
Proof.
  pose proof (metallicity_value self v Hname Hvalue) as H.
  split; [exact H|]. split; intros ->; rewrite H; reflexivity.
Qed.

Lemma metallicity_of_template_witness :
  metallicity (file_at "iso/output_0.0190.dat") = Ok float_0_019 /\
  metallicity (file_at "output_-0.5.dat") = Ok float_minus_0_5.
Proof.
  split.
  - apply (metallicity_of_template (file_at "iso/output_0.0190.dat") "0.0190");
      reflexivity.
  - apply (metallicity_of_template (file_at "output_-0.5.dat") "-0.5"); reflexivity.
Defined.

(** C4, as stated, fails: [table_0.5.dat] is not of the form
    [output_<value>.dat], and [metallicity] raises [IndexError] on it, which
    is not a [ValueError]. *)
Lemma metallicity_table_not_ValueError :
  ~ (forall self : IsochroneFile,
       (forall v, filename self <> "output_" +:+ v +:+ ".dat") ->
       fails_with (metallicity self) "ValueError" = true).
Proof.
  intros H. specialize (H (file_at "table_0.5.dat")).
  assert (E : fails_with (metallicity (file_at "table_0.5.dat")) "ValueError" = false)
    by reflexivity.
  rewrite H in E; [discriminate|].
  intros v. discriminate.
Qed.

(** C4, amended. [metallicity] raises nothing but [IndexError] and
    [ValueError]; on a name that does not contain [output_], such as
    [table_0.5.dat], it raises [IndexError], which is not a [ValueError]. *)
Theorem metallicity_errors {astropy : Astropy} (self : IsochroneFile) :
  (forall c m, metallicity self = Raise c m -> c = IndexError \/ c = ValueError) /\
  (contains "output_" (filename self) = false ->
   metallicity self = Raise IndexError None /\
   fails_with (metallicity self) "ValueError" = false).
Proof.
  split.
  - intros c m. rewrite metallicity_unfold.
    destruct (re_findall _ _) as [|g l].
    + intros [= <- _]. now left.
    + intros H%py_float_raises. now right.
  - intros H.
    assert (E : metallicity self = Raise IndexError None).
    { rewrite metallicity_unfold. unfold re_findall, the_regex. cbn [lookbehind lookahead].
      now rewrite findall_go_none. }
    rewrite E. split; reflexivity.
Qed.

Lemma metallicity_errors_witness :
  metallicity (file_at "table_0.5.dat") = Raise IndexError None /\
  fails_with (metallicity (file_at "table_0.5.dat")) "ValueError" = false.
Proof.
  apply (proj2 (metallicity_errors (file_at "table_0.5.dat"))). reflexivity.
Defined.

(** C2. The code misses what is stated: it strips the blanks at the ends of
    the header line before the line feed, and never the tabs, so a blank
    between the last name and the line feed leaves an empty name at the end,
    and a tab after the marker leaves one at the front. *)
Theorem column_names_blank_before_line_feed :
  let data_line := "6.6 0.1 -2.9 3.4" +:+ chr LF in
  fst (fst (column_names (file_at "output_0.5.dat")
              (one_file "output_0.5.dat"
                 ("# Age M_ini logL logT " +:+ chr LF +:+ data_line))))
  = Ok (Some ["Age"; "M_ini"; "logL"; "logT"; ""]) /\
  fst (fst (column_names (file_at "output_0.5.dat")
              (one_file "output_0.5.dat"
                 (String HASH (String TAB ("Age M_ini logL logT" +:+ chr LF +:+ data_line))))))
  = Ok (Some [""; "Age"; "M_ini"; "logL"; "logT"]).
Proof. split; reflexivity. Qed.

(** Where the names are followed at once by the line feed: when the text of
    the file is a block of comment lines, then a line
    made of the marker, spaces, and names separated by runs of spaces and
    tabs, then anything that does not start with the marker, the first read
    of [column_names] returns those names and stores them. *)
Theorem column_names_of_header {astropy : Astropy} (self : IsochroneFile) (w : World)
  (content : string) (cs : list string) (lead : nat) (n1 : string)
  (rest : list (string * string)) (tail : string)
  (Hfresh : _column_names self = None)
  (Hfile : files w !! Path_str (_path self) = Some content)
  (Htext : universal_newlines content
           = comment_block cs +:+ header_line lead n1 rest +:+ tail)
  (Hblock : forallb no_LF cs = true)
  (Hfirst : is_name n1 = true)
  (Hmarker : is_comment n1 = false)
  (Hrest : well_formed_rest rest = true)
  (Htail : is_comment tail = false) :
  column_names self w =
  (Ok (Some (n1 :: List.map snd rest)),
   set_column_names (Some (n1 :: List.map snd rest)) self,
   log_event (EvOpen (Path_str (_path self))) w).
Proof.
  rewrite (column_names_load self w content Hfresh Hfile), Htext.
  rewrite read_header_found by assumption.
  now rewrite parse_header_line.
Qed.

Lemma column_names_of_header_witness :
  fst (fst (column_names (file_at "output_0.5.dat") (one_file "output_0.5.dat" header_example)))
  = Ok (Some ["Age"; "M_ini"; "logL"; "logT"]).
Proof.
  rewrite (column_names_of_header (file_at "output_0.5.dat")
             (one_file "output_0.5.dat" header_example) header_example
             [" isochrone"] 1 "Age" [(" ", "M_ini"); (" ", "logL"); (" ", "logT")]
             ("6.6 0.1 -2.9 3.4" +:+ chr LF));
    reflexivity.
Defined.

(** C3, as stated, fails: on a file whose first line is a data line the
    access raises [UnboundLocalError], which is not a [HeaderFormatError]. *)
Lemma column_names_not_HeaderFormatError :
  ~ (forall (self : IsochroneFile) (w : World) (content : string),
       _column_names self = None ->
       files w !! Path_str (_path self) = Some content ->
       is_comment (universal_newlines content) = false ->
       fails_with (fst (fst (column_names self w))) "HeaderFormatError" = true).
Proof.
  intros H.
  specialize (H (file_at "output_0.5.dat")
                (one_file "output_0.5.dat" ("1 2 3" +:+ chr LF)) ("1 2 3" +:+ chr LF)
                eq_refl eq_refl eq_refl).
  vm_compute in H. discriminate H.
Qed.

(** C3, amended. On a file that does not begin with a comment line the first
    access of [column_names] raises [UnboundLocalError] (a [NameError], not a
    [HeaderFormatError]) once the file has been opened, and nothing is
    cached. *)
Theorem column_names_without_header {astropy : Astropy} (self : IsochroneFile) (w : World)
  (content : string)
  (Hfresh : _column_names self = None)
  (Hfile : files w !! Path_str (_path self) = Some content)
  (Hfirst : is_comment (universal_newlines content) = false) :
  column_names self w =
  (Raise UnboundLocalError None, self, log_event (EvOpen (Path_str (_path self))) w) /\
  is_a UnboundLocalError "NameError" = true /\
  is_a UnboundLocalError "HeaderFormatError" = false.
Proof.
  rewrite (column_names_load self w content Hfresh Hfile).
  rewrite (read_header_missing _ Hfirst). repeat split.
Qed.

Lemma column_names_without_header_witness :
  fst (fst (column_names (file_at "output_0.5.dat")
              (one_file "output_0.5.dat" ("1 2 3" +:+ chr LF))))
  = Raise UnboundLocalError None.
Proof.
  rewrite (proj1 (column_names_without_header (file_at "output_0.5.dat")
             (one_file "output_0.5.dat" ("1 2 3" +:+ chr LF)) ("1 2 3" +:+ chr LF)
             eq_refl eq_refl eq_refl)).
  reflexivity.
Defined.

(** C5. A lazy attribute ([column_names] or [data]) is not computed by the
    constructor. Once a read of it has returned a value, the value is cached:
    whatever attributes are read afterwards and however the files change, the
    cache keeps that value, no further file access of the kind that computes
    it is made, and a read returns it with the object and the world left as
    they are. *)
Theorem lazy_attribute_cached {astropy : Astropy} (m : member)
  (self self' : IsochroneFile) (w w' : World) (v : pyvalue)
  (Hlazy : m = m_column_names \/ m = m_data)
  (Hread : getattr m self w = (Ok v, self', w')) :
  cached m self' = Some v /\
  (forall (acts : list action) (w2 : World),
     cached m (fst (run acts self' w2)) = Some v /\
     loads m (io_log (snd (run acts self' w2))) = loads m (io_log w2) /\
     getattr m (fst (run acts self' w2)) (snd (run acts self' w2))
     = (Ok v, fst (run acts self' w2), snd (run acts self' w2))) /\
  (forall args iso w0 obj w1,
     __init__ args iso w0 = (Ok obj, w1) -> cached m obj = None).
Proof.
  pose proof (getattr_ok_cached m self self' w w' v Hlazy Hread) as Hc.
  split; [exact Hc|]. split.
  - intros acts w2. destruct (run_keeps m v acts self' w2 Hc) as [H1 H2].
    repeat split; [exact H1 | exact H2 | now apply getattr_cached].
  - intros args iso w0 obj w1 Hinit.
    apply init_inv in Hinit as (i & a0 & rest & p & _ & _ & _ & _ & -> & _).
    destruct m; reflexivity.
Qed.

Lemma lazy_attribute_cached_witness :
  cached m_data
    (snd (fst (getattr m_data (file_at "t.dat") (one_file "t.dat" table_text))))
  = Some (VTable (Some {| colnames := ["Age"; "M_ini"]; rows := [[6; 9]; [7; 1]]%Z |})).
Proof.
  apply (proj1 (lazy_attribute_cached m_data (file_at "t.dat") _
                  (one_file "t.dat" table_text) _ _ (or_intror eq_refl) eq_refl)).
Defined.



(** C10, as stated, fails: with the keyword given and one positional
    argument that is an integer, the constructor raises [TypeError]. *)
Lemma init_TypeError_on_integer :
  ~ (forall (args : list pyobj) (isochrone : option Isochrone) (w : World),
       fails_with (fst (__init__ args isochrone w)) "TypeError" = true <->
       isochrone = None \/ length args = 0 \/ 2 < length args).
Proof.
  intros H.
  destruct (proj1 (H [PyInt 42] (Some iso0) no_files) eq_refl) as [E | [E | E]].
  - discriminate E.
  - discriminate E.
  - cbn in E. lia.
Qed.

(** C10, amended. The constructor raises [TypeError] exactly when the keyword
    is missing, when there is no positional argument, when there are more
    than two, when [pathlib.Path] rejects the first one, or when writing the
    table of the two-argument form raises one. The keyword is checked first.
    An object that is returned is complete. *)
Theorem init_TypeError_cases {astropy : Astropy} (args : list pyobj)
  (isochrone : option Isochrone) (w : World) :
  (isochrone = None ->
   __init__ args isochrone w
   = (Raise TypeError (Some "Keyword argument 'isochrone' missing"), w)) /\
  (fails_with (fst (__init__ args isochrone w)) "TypeError" = true <->
   isochrone = None \/ length args = 0 \/ 2 < length args \/
   (exists a0 rest, isochrone <> None /\ args = a0 :: rest /\ length rest <= 1 /\
      fails_with (pathlib_Path a0) "TypeError" = true) \/
   (exists iso a0 a1 p, isochrone = Some iso /\ args = [a0; a1] /\
      pathlib_Path a0 = Ok p /\
      fails_with (fst (_write_table
         {| _isochrone := iso; _path := p; _column_names := None; _data := None |}
         a1 w)) "TypeError" = true)) /\
  (forall obj w',
     __init__ args isochrone w = (Ok obj, w') ->
     exists iso a0 rest p,
       isochrone = Some iso /\ args = a0 :: rest /\ length rest <= 1 /\
       pathlib_Path a0 = Ok p /\
       obj = {| _isochrone := iso; _path := p; _column_names := None; _data := None |}).
Proof.
  split; [|split].
  - intros ->. reflexivity.
  - unfold __init__. destruct isochrone as [iso|].
    2:{ split; [now left | reflexivity]. }
    destruct args as [|a0 rest].
    { split; [right; now left | reflexivity]. }
    destruct rest as [|a1 [|a2 rest]]; cbn [length Nat.eqb orb].
    + (* one argument *)
      destruct (pathlib_Path a0) as [p|c m] eqn:Hp; cbn [fst fails_with].
      * split; [discriminate|].
        intros [E | [E | [E | [E | E]]]]; try discriminate; try (cbn in E; lia).
        -- destruct E as (x & r & _ & [= <- <-] & _ & E). rewrite Hp in E. discriminate.
        -- destruct E as (i & x & y & q & _ & E & _). discriminate.
      * split.
        -- intros H. right. right. right. left. exists a0, [].
           repeat split; [discriminate | cbn; lia | now rewrite Hp].
        -- intros [E | [E | [E | [E | E]]]]; try discriminate; try (cbn in E; lia).
           ++ destruct E as (x & r & _ & [= <- <-] & _ & E). now rewrite Hp in E.
           ++ destruct E as (i & x & y & q & _ & E & _). discriminate.
    + (* two arguments *)
      destruct (pathlib_Path a0) as [p|c m] eqn:Hp; cbn [fst fails_with].
      * destruct (_write_table _ a1 w) as [[u|c m] w1] eqn:Hw; cbn [fst fails_with].
        -- split; [discriminate|].
           intros [E | [E | [E | [E | E]]]]; try discriminate; try (cbn in E; lia).
           ++ destruct E as (x & r & _ & [= <- <-] & _ & E). rewrite Hp in E. discriminate.
           ++ destruct E as (i & x & y & q & [= <-] & [= <- <-] & Hq & E).
              rewrite Hp in Hq. injection Hq as <-. rewrite Hw in E. discriminate.
        -- split.
           ++ intros H. right. right. right. right. exists iso, a0, a1, p.
              repeat split; [exact Hp | now rewrite Hw].
           ++ intros [E | [E | [E | [E | E]]]]; try discriminate; try (cbn in E; lia).
              ** destruct E as (x & r & _ & [= <- <-] & _ & E). rewrite Hp in E. discriminate.
              ** destruct E as (i & x & y & q & [= <-] & [= <- <-] & Hq & E).
                 rewrite Hp in Hq. injection Hq as <-. now rewrite Hw in E.
      * split.
        -- intros H. right. right. right. left. exists a0, [a1].
           repeat split; [discriminate | cbn; lia | now rewrite Hp].
        -- intros [E | [E | [E | [E | E]]]]; try discriminate; try (cbn in E; lia).
           ++ destruct E as (x & r & _ & [= <- <-] & _ & E). now rewrite Hp in E.
           ++ destruct E as (i & x & y & q & _ & [= <- <-] & Hq & _).
              rewrite Hp in Hq. discriminate.
    + (* more than two *)
      cbn [fst fails_with]. split; [|reflexivity].
      intros _. right. right. left. cbn. lia.
  - intros obj w' H. apply init_inv in H as (i & a0 & rest & p & H1 & H2 & H3 & H4 & H5 & _).
    exists i, a0, rest, p. auto.
Qed.

Lemma init_TypeError_cases_witness :
  __init__ [PyStr "a"; PyNone; PyNone] None no_files
  = (Raise TypeError (Some "Keyword argument 'isochrone' missing"), no_files).
Proof.
  apply (proj1 (init_TypeError_cases [PyStr "a"; PyNone; PyNone] None no_files)).
  reflexivity.
Defined.

(* ===================================================================== *)
(** * The claims on the entry point, and the written table *)
(* ===================================================================== *)

(** C7, as stated, fails: a call that gives the three arrays together with
    [pname] and [kname] is carried out, on the two files. *)
Lemma both_paths_accepted :
  ~ (forall (c : @call spec_pipeline) (e : SpecEnv),
       selects_files c = selects_arrays c ->
       raised (fst (make_survey_from_particles c e)) <> None).
Proof.
  intros H. apply (H call_both env0); reflexivity.
Qed.

(** C7, amended. The two input paths are the branches of one [if]/[elif], so
    at most one is taken. With [pname] and [kname] both given the input is
    built from the two files and the positional arguments play no part. With
    one of them missing and three positional arguments it is built from the
    arrays. Otherwise the call fails with [UnboundLocalError] before [Input]
    or [Survey] is called. *)
Theorem input_path_selection {pipeline : Pipeline} (c : call) (e : Env) :
  (forall p k, pname c = Some p -> kname c = Some k ->
     bind_input c e = Some (Input_files p k e) /\
     forall a, make_survey_from_particles (set_args a c) e
               = make_survey_from_particles c e) /\
  (selects_files c = false -> selects_arrays c = true ->
     bind_input c e = Some (Input_arrays (args c) (simname c) (knorm c) (ngb c) e)) /\
  (selects_files c = false -> selects_arrays c = false ->
     make_survey_from_particles c e = (Raise UnboundLocalError None, e)).
Proof.
  split; [|split].
  - intros p k Hp Hk. split.
    + unfold bind_input. now rewrite Hp, Hk.
    + intros a. unfold make_survey_from_particles, bind_input.
      cbn [set_args pname kname photo_sys surveyname cmd_magnames fsample kwargs].
      now rewrite Hp, Hk.
  - unfold selects_files, selects_arrays, bind_input. intros H1 H2.
    rewrite H2. destruct (pname c), (kname c); try discriminate; reflexivity.
  - unfold selects_files, selects_arrays, make_survey_from_particles, bind_input.
    intros H1 H2. rewrite H2. destruct (pname c), (kname c); try discriminate; reflexivity.
Qed.

Lemma input_path_selection_witness :
  make_survey_from_particles (set_args [] call_arrays) env0
  = (Raise UnboundLocalError None, env0).
Proof.
  apply (proj2 (proj2 (input_path_selection (set_args [] call_arrays) env0)));
    reflexivity.
Defined.

(** C8. With the collaborators as the specification describes them, a call
    whose sample fraction is outside the unit interval raises, and leaves the
    environment as it was: no file is written and the engine is not invoked.
    When the input and the survey are built, the exception is the one of the
    sample fraction. *)
Theorem fsample_out_of_range_rejected (c : @call spec_pipeline) (e : SpecEnv)
  (Hrange : fsample_ok (fsample c) = false) :
  (exists x m, make_survey_from_particles c e = (Raise x m, e)) /\
  (forall i s e1 e2,
     bind_input c e = Some (Ok i, e1) ->
     spec_Survey i (photo_sys c) (surveyname c) e1 = (Ok s, e2) ->
     make_survey_from_particles c e = (Raise ValueError (Some "fsample"), e)).
Proof.
  assert (Hin : forall r e1, bind_input c e = Some (r, e1) -> e1 = e).
  { unfold bind_input. cbn [Input_files Input_arrays spec_pipeline].
    intros r e1. destruct (pname c), (kname c);
      try (unfold spec_Input_files; intros [= _ <-]; reflexivity);
      (destruct (length (args c) =? 3)%nat; [|discriminate]);
      unfold spec_Input_arrays;
      repeat match goal with
             | |- context [match ?x with _ => _ end] => destruct x
             end; intros [= _ <-]; reflexivity. }
  assert (Hsv : forall i r e2, spec_Survey i (photo_sys c) (surveyname c) e = (r, e2) -> e2 = e).
  { intros i r e2. unfold spec_Survey. destruct (existsb _ _); intros [= _ <-]; reflexivity. }
  assert (Hmk : forall s, spec_make_survey s (cmd_magnames c) (fsample c) (kwargs c) e
                          = (Raise ValueError (Some "fsample"), e)).
  { intros s. unfold spec_make_survey. now rewrite Hrange. }
  split.
  - unfold make_survey_from_particles. cbn [Survey make_survey spec_pipeline].
    remember (bind_input c e) as b eqn:Hb in |- *. symmetry in Hb.
    destruct b as [[[i|x m] e1]|]; [| |eauto].
    + apply Hin in Hb as Hb'. subst e1.
      destruct (spec_Survey i (photo_sys c) (surveyname c) e) as [[s|x m] e2] eqn:Hs.
      * apply Hsv in Hs as ->. rewrite Hmk. eauto.
      * apply Hsv in Hs as ->. eauto.
    + apply Hin in Hb as ->. eauto.
  - intros i s e1 e2 Hb Hs. unfold make_survey_from_particles.
    cbn [Survey make_survey spec_pipeline]. rewrite Hb.
    apply Hin in Hb as ->. rewrite Hs. apply Hsv in Hs as ->. apply Hmk.
Qed.

Lemma fsample_out_of_range_rejected_witness :
  make_survey_from_particles (set_fsample float_1_5 call_arrays) env0
  = (Raise ValueError (Some "fsample"), env0).
Proof.
  apply (proj2 (fsample_out_of_range_rejected (set_fsample float_1_5 call_arrays) env0
                  eq_refl) _ _ _ _ eq_refl eq_refl).
Defined.

(** The same call with the default sample fraction goes through. *)
Example fsample_default_accepted :
  raised (fst (make_survey_from_particles call_arrays env0)) = None /\
  trace (snd (make_survey_from_particles call_arrays env0))
  = [WroteExchangeFiles "sim"; WroteParameterFile "survey"; EngineInvoked; OutputParsed].
Proof. split; reflexivity. Qed.

(* ===================================================================== *)
(** * Further properties of the constructor *)
(* ===================================================================== *)

Section MoreObjectFacts.
Context {astropy : Astropy}.

(** With two positional arguments of which the second is neither a
    DataFrame nor a Table, the constructor raises [ValueError] and leaves the
    world as it was: nothing is written. *)
Theorem init_rejects_non_table (a0 a1 : pyobj) (p : Path) (iso : Isochrone) (w : World)
  (Hpath : pathlib_Path a0 = Ok p)
  (Hdata : as_table a1 = None) :
  __init__ [a0; a1] (Some iso) w
  = (Raise ValueError
       (Some "Given data should either be a pandas DataFrame or an astropy Table"), w).
Proof.
  unfold __init__, _write_table. cbn [length Nat.eqb orb]. now rewrite Hpath, Hdata.
Qed.

(** The constructor never opens or reads a file. Either it leaves the world
    as it was, or it was called with the keyword, a path and a table that the
    library sorted, and then the only change is the write of the sorted table
    under that path, logged once. *)
Theorem init_footprint (args : list pyobj) (iso : option Isochrone) (w : World) :
  snd (__init__ args iso w) = w \/
  exists i a0 a1 p t ts,
    iso = Some i /\ args = [a0; a1] /\ pathlib_Path a0 = Ok p /\
    as_table a1 = Some t /\ Table_sort [_Age i; _M_ini i] t = Ok ts /\
    snd (__init__ args iso w)
    = {| files := snd (Table_write ts (Path_str p) (files w));
         io_log := io_log w ++ [EvWrite (Path_str p)] |}.
Proof.
  unfold __init__. destruct iso as [i|]; [|now left].
  destruct args as [|a0 [|a1 [|a2 rest]]]; cbn [length Nat.eqb orb]; try (now left).
  - destruct (pathlib_Path a0); now left.
  - destruct (pathlib_Path a0) as [p|] eqn:Hp; [|now left].
    unfold _write_table. cbn [isochrone path _isochrone _path].
    destruct (as_table a1) as [t|] eqn:Ht; [|now left].
    destruct (Table_sort _ t) as [ts|] eqn:Hs; [|now left].
    right. exists i, a0, a1, p, t, ts. repeat split; try assumption.
    destruct (Table_write ts (Path_str p) (files w)) as [[u|c m] fs]; reflexivity.
Qed.

End MoreObjectFacts.

(* ===================================================================== *)
(** * Further properties of the header *)
(* ===================================================================== *)

Lemma header_loop_keeps fuel : forall _temp h f,
  is_comment h = true ->
  exists h', header_loop fuel _temp (Some h) f = Some h' /\ is_comment h' = true.
Proof.
  induction fuel as [|n IH]; intros _temp h f Hh; cbn [header_loop]; [eauto|].
  destruct (is_comment _temp); [|eauto].
  destruct (readline f) as [line f'].
  destruct (is_comment line) eqn:Hl; [apply IH; exact Hl | apply IH; exact Hh].
Qed.

Lemma read_header_some f :
  is_comment f = true -> exists h, read_header f = Some h /\ is_comment h = true.
Proof.
  intros Hf. unfold read_header. cbn [header_loop].
  change (is_comment "#") with true. cbn iota.
  pose proof (readline_comment f) as Hl.
  destruct (readline f) as [line f']. cbn [fst] in Hl. rewrite Hf in Hl. rewrite Hl.
  now apply header_loop_keeps.
Qed.

(** The core of [parse_header]: on a line made of the marker, spaces, a text
    [L] that starts with none of space, line feed and marker and holds no
    line feed, and the line feed, what is split is [L] with its tabs
    replaced and its runs of spaces squeezed. *)
Lemma parse_header_core lead c r :
  Ascii.eqb c SP = false -> Ascii.eqb c LF = false -> Ascii.eqb c HASH = false ->
  no_LF r = true ->
  parse_header (String HASH (spaces lead +:+ String c r +:+ chr LF))
  = split " " (squeeze (untab (String c r))).
Proof.
  intros Hsp Hlf Hhash HnoLF. unfold parse_header.
  set (L := String c r).
  assert (E1 : strip HASH (String HASH (spaces lead +:+ L +:+ chr LF))
               = spaces lead +:+ L +:+ chr LF).
  { unfold strip, strip_by. cbn [lstrip_by]. rewrite Ascii.eqb_refl.
    assert (El : lstrip_by (Ascii.eqb HASH) (spaces lead +:+ L +:+ chr LF)
                 = spaces lead +:+ L +:+ chr LF).
    { destruct lead as [|k].
      - change (spaces 0 +:+ L +:+ chr LF) with (String c (r +:+ chr LF)).
        apply lstrip_by_stop. now rewrite Ascii.eqb_sym.
      - apply lstrip_by_stop. reflexivity. }
    rewrite El, <- sapp_assoc. apply rstrip_by_last_keep. reflexivity. }
  rewrite E1.
  assert (E2 : strip SP (spaces lead +:+ L +:+ chr LF) = L +:+ chr LF).
  { unfold strip, strip_by.
    change (L +:+ chr LF) with (String c (r +:+ chr LF)).
    rewrite lstrip_by_spaces by (rewrite Ascii.eqb_sym; exact Hsp).
    change (String c (r +:+ chr LF)) with (L +:+ chr LF).
    apply rstrip_by_last_keep. reflexivity. }
  rewrite E2.
  assert (E3 : strip LF (L +:+ chr LF) = L).
  { unfold strip, strip_by.
    change (L +:+ chr LF) with (String c (r +:+ chr LF)).
    rewrite lstrip_by_stop by (rewrite Ascii.eqb_sym; exact Hlf).
    change (String c (r +:+ chr LF)) with (L +:+ chr LF).
    rewrite rstrip_by_last_drop by reflexivity.
    apply rstrip_by_keep. unfold L. cbn [all_chars].
    rewrite Ascii.eqb_sym, Hlf. cbn [negb andb].
    revert HnoLF. unfold no_LF. apply all_chars_weaken.
    intros x Hx. now rewrite Ascii.eqb_sym. }
  rewrite E3, replace_tab, collapse_loop_squeeze by reflexivity.
  reflexivity.
Qed.

Lemma all_chars_untab f s :
  (forall c, f c = true -> f (if Ascii.eqb c TAB then SP else c) = true) ->
  all_chars f s = true -> all_chars f (untab s) = true.
Proof.
  intros Hf. induction s as [|a s IH]; cbn [untab all_chars]; [reflexivity|].
  intros [Ha Hs]%andb_true_iff. now rewrite (Hf _ Ha), (IH Hs).
Qed.

Lemma untab_no_tab s : all_chars (fun c => negb (Ascii.eqb c TAB)) (untab s) = true.
Proof.
  induction s as [|a s IH]; cbn [untab all_chars]; [reflexivity|]. rewrite IH.
  destruct (Ascii.eqb a TAB) eqn:E; [reflexivity | now rewrite E].
Qed.

Lemma all_chars_squeeze f s : all_chars f s = true -> all_chars f (squeeze s) = true.
Proof.
  induction s as [|a s IH]; cbn [squeeze all_chars]; [reflexivity|].
  intros [Ha Hs]%andb_true_iff. specialize (IH Hs).
  destruct (Ascii.eqb a SP && starts_with SP (squeeze s)); [exact IH|].
  cbn [all_chars]. now rewrite Ha, IH.
Qed.

Lemma split_space_shape f s :
  all_chars f s = true ->
  split " " s <> [] /\
  forallb (all_chars (fun c => f c && negb (Ascii.eqb SP c))) (split " " s) = true.
Proof.
  induction s as [|a s IH]; intros H.
  - split; [discriminate | reflexivity].
  - cbn [all_chars] in H. apply andb_true_iff in H as [Ha Hs].
    destruct (IH Hs) as [Hne Hall]. rewrite split_space_cons.
    destruct (Ascii.eqb SP a) eqn:E.
    + split; [discriminate|]. cbn [forallb all_chars]. exact Hall.
    + destruct (split " " s) as [|x xs]; [now elim Hne|].
      cbn [cons_first]. split; [discriminate|].
      cbn [forallb all_chars] in *. now rewrite Ha, E.
Qed.

(** Whatever the header line, the list of names is not empty and no name
    holds a space or a tab. *)
Theorem parse_header_shape (header : string) :
  parse_header header <> [] /\
  forallb (all_chars (fun c => negb (blank c))) (parse_header header) = true.
Proof.
  unfold parse_header. rewrite replace_tab, collapse_loop_squeeze by reflexivity.
  set (s := squeeze (untab _)).
  assert (Hs : all_chars (fun c => negb (Ascii.eqb c TAB)) s = true)
    by apply all_chars_squeeze, untab_no_tab.
  destruct (split_space_shape _ s Hs) as [Hne Hall]. split; [exact Hne|].
  revert Hall. generalize (split " " s). intros l.
  induction l as [|x l IH]; [reflexivity|]. cbn [forallb].
  intros [Hx Hl]%andb_true_iff. rewrite (IH Hl), andb_true_r.
  revert Hx. apply all_chars_weaken. intros c [H1 H2]%andb_true_iff.
  unfold blank. apply negb_true_iff in H1, H2. rewrite Ascii.eqb_sym in H2.
  now rewrite H1, H2.
Qed.

Lemma names_parsed_trailing rest : forall n1 sep,
  is_name n1 = true -> well_formed_rest rest = true -> is_separator sep = true ->
  split " " (squeeze (untab (names_line n1 rest +:+ sep)))
  = (n1 :: List.map snd rest) ++ [""].
Proof.
  induction rest as [|[s n] rest IH]; intros n1 sep Hn1 Hrest Hsep;
    cbn [names_line List.map snd].
  - apply is_name_inv in Hn1 as [Hn1 _].
    unfold is_separator in Hsep. apply andb_true_iff in Hsep as [Hne Hsep].
    rewrite untab_app, (untab_plain _ Hn1), (untab_blank _ Hsep).
    rewrite (squeeze_plain_app _ _ Hn1).
    destruct sep as [|x sep]; [discriminate|]. cbn [String.length].
    rewrite <- (sapp_nil_r (spaces (S (String.length sep)))).
    rewrite squeeze_spaces by reflexivity.
    now rewrite (split_plain_app _ _ Hn1).
  - cbn [well_formed_rest forallb fst snd] in Hrest.
    apply andb_true_iff in Hrest as [[Hs Hn]%andb_true_iff Hrest].
    specialize (IH n sep Hn Hrest Hsep).
    apply is_name_inv in Hn1 as [Hn1 _].
    unfold is_separator in Hs. apply andb_true_iff in Hs as [Hne Hs].
    rewrite !sapp_assoc.
    rewrite untab_app, untab_app, (untab_plain _ Hn1), (untab_blank _ Hs).
    rewrite (squeeze_plain_app _ _ Hn1).
    destruct s as [|x s]; [discriminate|]. cbn [String.length].
    rewrite squeeze_spaces.
    + rewrite (split_plain_app _ _ Hn1), IH. reflexivity.
    + destruct (names_line_head n rest Hn) as (c & r & -> & Hc).
      change (String c r +:+ sep) with (String c (r +:+ sep)).
      cbn [untab]. rewrite squeeze_starts.
      apply plain_inv in Hc as (Hsp & Htab & _). now rewrite Htab.
Qed.

Lemma no_LF_blank s : all_chars blank s = true -> no_LF s = true.
Proof.
  apply all_chars_weaken. intros c Hc. unfold blank in Hc.
  apply orb_true_iff in Hc as [H|H]; apply ascii_eqb_true in H; subst c; reflexivity.
Qed.

(** Blanks between the last name and the line feed are not stripped: they
    give one more name, the empty text, at the end. *)
Theorem parse_header_trailing_blank (lead : nat) (n1 : string)
  (rest : list (string * string)) (sep : string)
  (Hfirst : is_name n1 = true)
  (Hmarker : is_comment n1 = false)
  (Hrest : well_formed_rest rest = true)
  (Hsep : is_separator sep = true) :
  parse_header (String HASH (spaces lead +:+ (names_line n1 rest +:+ sep) +:+ chr LF))
  = (n1 :: List.map snd rest) ++ [""].
Proof.
  destruct (names_line_head n1 rest Hfirst) as (c & r & EL & Hc).
  assert (Hc' : Ascii.eqb c HASH = false).
  { apply is_name_inv in Hfirst as (_ & c0 & r0 & -> & _).
    destruct rest as [|[s n] rest]; cbn [names_line] in EL; injection EL as -> _;
      exact Hmarker. }
  pose proof (names_line_no_LF rest n1 Hfirst Hrest) as HnoLF.
  apply plain_inv in Hc as (Hsp & Htab & Hlf).
  rewrite <- (names_parsed_trailing rest n1 sep Hfirst Hrest Hsep).
  rewrite EL in *. change (String c r +:+ sep) with (String c (r +:+ sep)).
  apply parse_header_core; try assumption.
  unfold no_LF in *. cbn [all_chars] in HnoLF. apply andb_true_iff in HnoLF as [_ Hr].
  rewrite all_chars_app, Hr. cbn [andb].
  unfold is_separator in Hsep. apply andb_true_iff in Hsep as [_ Hsep].
  now apply no_LF_blank.
Qed.

(** A tab among the blanks after the marker stops the stripping of spaces:
    the names are then preceded by one empty name. *)
Theorem parse_header_leading_tab (lead : nat) (blanks n1 : string)
  (rest : list (string * string))
  (Hblanks : all_chars blank blanks = true)
  (Hfirst : is_name n1 = true)
  (Hrest : well_formed_rest rest = true) :
  parse_header
    (String HASH (spaces lead +:+ String TAB (blanks +:+ names_line n1 rest) +:+ chr LF))
  = "" :: n1 :: List.map snd rest.
Proof.
  rewrite parse_header_core; try reflexivity.
  - cbn [untab]. rewrite Ascii.eqb_refl, untab_app, (untab_blank _ Hblanks).
    change (String SP (spaces (String.length blanks) +:+ ?x))
      with (spaces (S (String.length blanks)) +:+ x).
    rewrite squeeze_spaces.
    + rewrite split_space_cons, Ascii.eqb_refl. now rewrite names_parsed.
    + destruct (names_line_head n1 rest Hfirst) as (c & r & -> & Hc).
      cbn [untab]. rewrite squeeze_starts.
      apply plain_inv in Hc as (Hsp & Htab & _). now rewrite Htab.
  - unfold no_LF. rewrite all_chars_app.
    fold (no_LF blanks) (no_LF (names_line n1 rest)).
    now rewrite (no_LF_blank _ Hblanks), names_line_no_LF.
Qed.

Section HeaderOutcomes.
Context {astropy : Astropy}.

(** On a file that is there, the first read of [column_names] is decided by
    the first character of the text. When the text starts with the marker the
    read succeeds, whatever follows: the names parsed from some line that
    starts with the marker are returned and cached. Otherwise it raises
    [UnboundLocalError] and the object is unchanged. Either way the file is
    opened once. *)
Theorem column_names_outcomes (self : IsochroneFile) (w : World) (content : string)
  (Hfresh : _column_names self = None)
  (Hfile : files w !! Path_str (_path self) = Some content) :
  let w1 := log_event (EvOpen (Path_str (_path self))) w in
  if is_comment (universal_newlines content)
  then exists header,
         is_comment header = true /\
         column_names self w
         = (Ok (Some (parse_header header)),
            set_column_names (Some (parse_header header)) self, w1)
  else column_names self w = (Raise UnboundLocalError None, self, w1).
Proof.
  intros w1. rewrite (column_names_load self w content Hfresh Hfile).
  destruct (is_comment (universal_newlines content)) eqn:Hc.
  - destruct (read_header_some _ Hc) as (h & -> & Hh). eauto.
  - now rewrite (read_header_missing _ Hc).
Qed.

End HeaderOutcomes.

(* ===================================================================== *)
(** * Further properties of [metallicity] *)
(* ===================================================================== *)

Lemma match_here_cons a p c s :
  match_here (a :: p) (String c s) = atom_matches a c && match_here p s.
Proof. reflexivity. Qed.

Lemma greedy_cons la c r :
  greedy la (String c r) =
  if Ascii.eqb c LF
  then (if match_here la (String c r) then Some "" else None)
  else match greedy la r with
       | Some g => Some (String c g)
       | None => if match_here la (String c r) then Some "" else None
       end.
Proof. reflexivity. Qed.

Lemma greedy_value_any (v : string) (c : ascii) :
  no_LF v = true -> Ascii.eqb c LF = false ->
  greedy (re_atoms ".dat") (v +:+ String c "dat") = Some v.
Proof.
  intros Hv Hc. induction v as [|a v IH].
  - change ("" +:+ String c "dat") with (String c "dat").
    assert (E : greedy (re_atoms ".dat") "dat" = None) by reflexivity.
    rewrite greedy_cons, Hc, E.
    change (re_atoms ".dat") with [AnyChar; Lit "d"; Lit "a"; Lit "t"]%char.
    rewrite match_here_cons. cbn [atom_matches]. rewrite Hc. reflexivity.
  - unfold no_LF in Hv. cbn [all_chars] in Hv. apply andb_true_iff in Hv as [Ha Hv].
    change (String a v +:+ String c "dat") with (String a (v +:+ String c "dat")).
    rewrite greedy_cons. apply negb_true_iff in Ha. rewrite Ha, (IH Hv). reflexivity.
Qed.

Lemma contains_tail sub c r : contains sub (String c r) = false -> contains sub r = false.
Proof. cbn [contains]. now intros [_ H]%orb_false_iff. Qed.

Lemma lookahead_found s :
  match_here (re_atoms ".dat") s = true -> contains "dat" s = true.
Proof.
  change (re_atoms ".dat") with [AnyChar; Lit "d"; Lit "a"; Lit "t"]%char.
  destruct s as [|c s]; [discriminate|]. rewrite match_here_cons.
  intros [_ H]%andb_true_iff.
  repeat (apply match_here_lit in H as (? & -> & H)).
  cbn [contains]. apply orb_true_iff. right. apply orb_true_iff. left.
  match goal with |- String.prefix _ (String _ (String _ (String _ ?t))) = true =>
    destruct t; reflexivity end.
Qed.

Lemma greedy_found s g :
  greedy (re_atoms ".dat") s = Some g -> contains "dat" s = true.
Proof.
  revert g. induction s as [|c r IH]; intros g; cbn [greedy].
  - destruct (match_here _ "") eqn:E; [|discriminate]. intros _. now apply lookahead_found.
  - destruct (Ascii.eqb c LF).
    + destruct (match_here _ (String c r)) eqn:E; [|discriminate].
      intros _. now apply lookahead_found.
    + destruct (greedy _ r) as [g'|] eqn:Eg.
      * intros _. cbn [contains]. rewrite (IH g' eq_refl). apply orb_true_r.
      * destruct (match_here _ (String c r)) eqn:E; [|discriminate].
        intros _. now apply lookahead_found.
Qed.

Lemma findall_go_no_suffix lb skip before s :
  contains "dat" s = false ->
  findall_go lb (re_atoms ".dat") skip before s = [].
Proof.
  revert skip before. induction s as [|c r IH]; intros skip before H.
  - cbn [findall_go]. destruct (match_here lb before); [|now destruct skip].
    destruct (greedy _ "") as [g|] eqn:Eg; [|now destruct skip].
    apply greedy_found in Eg. congruence.
  - cbn [findall_go].
    assert (Hg : greedy (re_atoms ".dat") (String c r) = None).
    { destruct (greedy _ (String c r)) as [g|] eqn:Eg; [|reflexivity].
      apply greedy_found in Eg. congruence. }
    rewrite Hg. apply contains_tail in H.
    destruct (match_here lb before); destruct skip; now apply IH.
Qed.

Section MoreMetallicity.
Context {astropy : Astropy}.

(** The dot of the suffix is a wildcard: any character but a line feed in
    front of [dat] does as well as the dot. *)
Theorem metallicity_suffix_wildcard (self : IsochroneFile) (v : string) (c : ascii)
  (Hname : filename self = "output_" +:+ v +:+ String c "dat")
  (Hvalue : no_LF v = true)
  (Hchar : Ascii.eqb c LF = false) :
  metallicity self = py_float v.
Proof.
  rewrite metallicity_unfold, Hname.
  assert (H : hd_error (re_findall the_regex ("output_" +:+ v +:+ String c "dat")) = Some v).
  { unfold re_findall, the_regex. cbn [lookbehind lookahead].
    change ("output_" +:+ v +:+ String c "dat")
      with (String "o" (String "u" (String "t" (String "p" (String "u" (String "t"
             (String "_" (v +:+ String c "dat")))))))).
    do 7 (rewrite findall_go_pass by reflexivity).
    apply findall_go_hit; [reflexivity | now apply greedy_value_any]. }
  destruct (re_findall _ _) as [|g l]; cbn in H; [discriminate|].
  now injection H as ->.
Qed.

(** On a name that does not contain [dat] the pattern finds nothing and
    [metallicity] raises [IndexError]. *)
Theorem metallicity_without_suffix (self : IsochroneFile)
  (Hname : contains "dat" (filename self) = false) :
  metallicity self = Raise IndexError None.
Proof.
  rewrite metallicity_unfold. unfold re_findall, the_regex. cbn [lookbehind lookahead].
  now rewrite findall_go_no_suffix.
Qed.

(* ===================================================================== *)
(** * Further properties of the lazy attributes *)
(* ===================================================================== *)

Lemma column_names_frame (self self' : IsochroneFile) w w' r :
  column_names self w = (r, self', w') ->
  _path self' = _path self /\ _isochrone self' = _isochrone self /\
  files w' = files w /\
  List.filter is_write (io_log w') = List.filter is_write (io_log w).
Proof.
  unfold column_names. destruct (_column_names self).
  - intros [= <- <- <-]. auto.
  - unfold _load_column_names, _open.
    assert (E : List.filter is_write (io_log (log_event (EvOpen (Path_str (_path self))) w))
                = List.filter is_write (io_log w)).
    { unfold log_event. cbn [io_log]. rewrite List.filter_app. cbn. now rewrite app_nil_r. }
    destruct (files w !! _).
    + destruct (read_header _); intros [= <- <- <-]; auto.
    + intros [= <- <- <-]; auto.
Qed.

Lemma data_frame (self self' : IsochroneFile) w w' r :
  data self w = (r, self', w') ->
  _path self' = _path self /\ _isochrone self' = _isochrone self /\
  files w' = files w /\
  List.filter is_write (io_log w') = List.filter is_write (io_log w).
Proof.
  unfold data. destruct (_data self).
  - intros [= <- <- <-]. auto.
  - unfold _load_data.
    destruct (column_names self w) as [[r0 s1] w1] eqn:Hc.
    apply column_names_frame in Hc as (H1 & H2 & H3 & H4).
    assert (E : List.filter is_write (io_log (log_event (EvRead (Path_str (_path s1))) w1))
                = List.filter is_write (io_log w)).
    { unfold log_event. cbn [io_log]. rewrite List.filter_app. cbn.
      now rewrite app_nil_r. }
    destruct r0 as [names|c m].
    + destruct (ascii_read _ _ _); intros [= <- <- <-]; auto.
    + intros [= <- <- <-]. auto.
Qed.

Lemma getattr_frame (m : member) (self self' : IsochroneFile) w w' r :
  getattr m self w = (r, self', w') ->
  _path self' = _path self /\ _isochrone self' = _isochrone self /\
  files w' = files w /\
  List.filter is_write (io_log w') = List.filter is_write (io_log w).
Proof.
  destruct m; cbn [getattr]; try (intros [= <- <- <-]; auto).
  - destruct (column_names self w) as [[r0 s1] w1] eqn:Hc.
    intros [= <- <- <-]. now apply column_names_frame in Hc.
  - destruct (data self w) as [[r0 s1] w1] eqn:Hd.
    intros [= <- <- <-]. now apply data_frame in Hd.
Qed.

(** Reading attributes, in any number and order and whatever happens to the
    files in between, never changes the path or the isochrone of the object
    and never logs a write; and reads alone leave every file as it was. *)
Theorem reads_never_write (acts : list action) (self : IsochroneFile) (w : World) :
  _path (fst (run acts self w)) = _path self /\
  _isochrone (fst (run acts self w)) = _isochrone self /\
  List.filter is_write (io_log (snd (run acts self w))) = List.filter is_write (io_log w) /\
  (forallb (fun a => match a with Get _ => true | Disturb _ => false end) acts = true ->
   files (snd (run acts self w)) = files w).
Proof.
  revert self w. induction acts as [|[m|fs] acts IH]; intros self w; cbn [run].
  - auto.
  - destruct (getattr m self w) as [[r s1] w1] eqn:Hg.
    apply getattr_frame in Hg as (H1 & H2 & H3 & H4).
    destruct (IH s1 w1) as (I1 & I2 & I3 & I4).
    repeat split; try congruence.
    cbn [forallb andb]. intros Ha. rewrite (I4 Ha). exact H3.
  - destruct (IH self {| files := fs; io_log := io_log w |}) as (I1 & I2 & I3 & I4).
    repeat split; try assumption. discriminate.
Qed.

(** When the first read of [data] succeeds, the column names are cached as
    well, and the table is what the library read from the file with exactly
    those names. *)
Theorem data_loaded_after_names (self self' : IsochroneFile) (w w' : World)
  (r : option Table)
  (Hfresh : _data self = None)
  (Hread : data self w = (Ok r, self', w')) :
  exists names t,
    _column_names self' = Some names /\
    r = Some t /\ _data self' = Some t /\
    ascii_read (files w) (Path_str (_path self)) (Some names) = Ok t.
Proof.
  revert Hread. unfold data, _load_data. rewrite Hfresh.
  destruct (column_names self w) as [[[names|c m] s1] w1] eqn:Hc; [|discriminate].
  pose proof (column_names_frame _ _ _ _ _ Hc) as (Hp & _ & Hf & _).
  apply column_names_ok in Hc as (ns & -> & Hns & _).
  rewrite Hp, Hf.
  destruct (ascii_read _ _ _) as [t|] eqn:Hr; [|discriminate].
  intros [= <- <- <-]. exists ns, t. cbn [set_data _column_names _data]. auto.
Qed.

End MoreMetallicity.

(* ===================================================================== *)
(** * Further properties of the entry point *)
(* ===================================================================== *)

Section MoreEntryPoint.
Context {pipeline : Pipeline}.

(** With [pname] and [kname] both given, [simname], [knorm] and [ngb] play no
    part in the call. *)
Theorem files_path_ignores_array_options (c : call) (e : Env) (p k : string)
  (Hp : pname c = Some p) (Hk : kname c = Some k) :
  forall sim kn ng,
    make_survey_from_particles (set_array_options sim kn ng c) e
    = make_survey_from_particles c e.
Proof.
  intros sim kn ng. unfold make_survey_from_particles, bind_input.
  cbn [set_array_options pname kname photo_sys surveyname cmd_magnames fsample kwargs].
  now rewrite Hp, Hk.
Qed.

(** With three positional arguments, a [pname] given without [kname], or a
    [kname] without [pname], is ignored. *)
Theorem lone_name_ignored (c : call) (e : Env) (x : string)
  (Harrays : selects_arrays c = true) :
  make_survey_from_particles (set_names (Some x) None c) e
  = make_survey_from_particles (set_names None None c) e /\
  make_survey_from_particles (set_names None (Some x) c) e
  = make_survey_from_particles (set_names None None c) e.
Proof.
  unfold selects_arrays in Harrays.
  unfold make_survey_from_particles, bind_input.
  cbn [set_names pname kname args simname knorm ngb photo_sys surveyname
       cmd_magnames fsample kwargs].
  rewrite Harrays. split; reflexivity.
Qed.

End MoreEntryPoint.

Lemma count2_squeeze s : count "  " (squeeze s) = 0.
Proof.
  induction s as [|a r IH]; [reflexivity|]. cbn [squeeze].
  destruct (Ascii.eqb a SP && starts_with SP (squeeze r)) eqn:E; [exact IH|].
  destruct (squeeze r) as [|b t] eqn:Et; [apply count2_one|].
  rewrite count2_cons. cbn [starts_with] in E.
  rewrite (Ascii.eqb_sym SP a), E. exact IH.
Qed.

(** The collapsing loop ends with no two adjacent spaces left; it turns
    every run of spaces into one space and never lengthens the text. *)
Theorem collapse_loop_result (header : string) :
  count "  " (collapse_loop (String.length header) header) = 0 /\
  collapse_loop (String.length header) header = squeeze header /\
  String.length (collapse_loop (String.length header) header) <= String.length header.
Proof.
  rewrite collapse_loop_squeeze by reflexivity.
  split; [apply count2_squeeze|]. split; [reflexivity|].
  induction header as [|a r IH]; [reflexivity|]. cbn [squeeze].
  destruct (Ascii.eqb a SP && starts_with SP (squeeze r)); cbn [String.length]; lia.
Qed.

Section LastComment.
Context {astropy : Astropy}.

(** The header is the last line of the leading block of comment lines,
    whatever it holds: the names are parsed from that line, and what follows
    the first line that is not a comment is not looked at. *)
Theorem column_names_last_comment (self : IsochroneFile) (w : World)
  (content : string) (cs : list string) (c tail : string)
  (Hfresh : _column_names self = None)
  (Hfile : files w !! Path_str (_path self) = Some content)
  (Htext : universal_newlines content = comment_block (cs ++ [c]) +:+ tail)
  (Hblock : forallb no_LF (cs ++ [c]) = true)
  (Htail : is_comment tail = false) :
  fst (fst (column_names self w))
  = Ok (Some (parse_header (String HASH (c +:+ chr LF)))).
Proof.
  rewrite (column_names_load self w content Hfresh Hfile), Htext.
  unfold read_header. rewrite header_loop_block; try assumption; try reflexivity; [|lia].
  now rewrite last_comment_app.
Qed.

End LastComment.

Lemma init_rejects_non_table_witness :
  __init__ [PyStr "out/iso.dat"; PyInt 3] (Some iso0) no_files
  = (Raise ValueError
       (Some "Given data should either be a pandas DataFrame or an astropy Table"),
     no_files).
Proof.
  apply (init_rejects_non_table (PyStr "out/iso.dat") (PyInt 3)
           (Path_of_str "out/iso.dat") iso0 no_files); reflexivity.
Defined.

Lemma column_names_outcomes_witness :
  exists header,
    is_comment header = true /\
    column_names (file_at "output_0.5.dat") (one_file "output_0.5.dat" header_example)
    = (Ok (Some (parse_header header)),
       set_column_names (Some (parse_header header)) (file_at "output_0.5.dat"),
       log_event (EvOpen "output_0.5.dat") (one_file "output_0.5.dat" header_example)).
Proof.
  exact (column_names_outcomes (file_at "output_0.5.dat")
           (one_file "output_0.5.dat" header_example) header_example eq_refl eq_refl).
Defined.

Lemma parse_header_trailing_blank_witness :
  parse_header ("# Age M_ini " +:+ chr LF) = ["Age"; "M_ini"; ""].
Proof.
  exact (parse_header_trailing_blank 1 "Age" [(" ", "M_ini")] " "
           eq_refl eq_refl eq_refl eq_refl).
Defined.

Lemma parse_header_leading_tab_witness :
  parse_header (String HASH (String TAB ("Age M_ini" +:+ chr LF))) = [""; "Age"; "M_ini"].
Proof.
  exact (parse_header_leading_tab 0 "" "Age" [(" ", "M_ini")] eq_refl eq_refl eq_refl).
Defined.

Lemma metallicity_suffix_wildcard_witness :
  metallicity (file_at "output_-0.5_dat") = Ok float_minus_0_5.
Proof.
  rewrite (metallicity_suffix_wildcard (file_at "output_-0.5_dat") "-0.5" "_"
             eq_refl eq_refl eq_refl).
  reflexivity.
Defined.

Lemma metallicity_without_suffix_witness :
  metallicity (file_at "output_0.5.txt") = Raise IndexError None.
Proof.
  exact (metallicity_without_suffix (file_at "output_0.5.txt") eq_refl).
Defined.

Lemma reads_never_write_witness :
  files (snd (run [Get m_data; Get m_metallicity; Get m_column_names]
                (file_at "t.dat") (one_file "t.dat" table_text)))
  = files (one_file "t.dat" table_text).
Proof.
  apply (proj2 (proj2 (proj2 (reads_never_write
           [Get m_data; Get m_metallicity; Get m_column_names]
           (file_at "t.dat") (one_file "t.dat" table_text))))).
  reflexivity.
Defined.

Lemma data_loaded_after_names_witness :
  exists names t,
    _column_names (snd (fst (data (file_at "t.dat") (one_file "t.dat" table_text))))
    = Some names /\
    fst (fst (data (file_at "t.dat") (one_file "t.dat" table_text))) = Ok (Some t).
Proof.
  destruct (data_loaded_after_names (file_at "t.dat") _ (one_file "t.dat" table_text) _ _
              eq_refl eq_refl) as (names & t & H1 & H2 & _).
  exists names, t. split; [exact H1 | rewrite <- H2; reflexivity].
Defined.

Lemma files_path_ignores_array_options_witness :
  make_survey_from_particles (set_array_options "other" one64 8 call_both) env0
  = make_survey_from_particles call_both env0.
Proof.
  exact (files_path_ignores_array_options call_both env0 "particles.ebf" "kernels.ebf"
           eq_refl eq_refl "other" one64 8%Z).
Defined.

Lemma lone_name_ignored_witness :
  make_survey_from_particles (set_names (Some "particles.ebf") None call_arrays) env0
  = make_survey_from_particles (set_names None None call_arrays) env0.
Proof.
  exact (proj1 (lone_name_ignored call_arrays env0 "particles.ebf" eq_refl)).
Defined.

Lemma column_names_last_comment_witness :
  fst (fst (column_names (file_at "output_0.5.dat")
              (one_file "output_0.5.dat" header_example)))
  = Ok (Some ["Age"; "M_ini"; "logL"; "logT"]).
Proof.
  rewrite (column_names_last_comment (file_at "output_0.5.dat")
             (one_file "output_0.5.dat" header_example) header_example
             [" isochrone"] " Age M_ini logL logT" ("6.6 0.1 -2.9 3.4" +:+ chr LF)
             eq_refl eq_refl eq_refl eq_refl eq_refl).
  reflexivity.
Defined.

(* ===================================================================== *)
(** * The small instance keeps the contract: sorting *)
(* ===================================================================== *)

Lemma lex_leb_total (a b : list Z) : lex_leb Z.leb a b = false -> lex_leb Z.leb b a = true.
Proof.
  revert b. induction a as [|x a IH]; intros [|y b]; cbn [lex_leb]; try discriminate.
  destruct (x <=? y)%Z eqn:E1, (y <=? x)%Z eqn:E2; try discriminate; try reflexivity.
  - apply IH.
  - apply Z.leb_gt in E1, E2. lia.
Qed.

Lemma lex_leb_trans (a : list Z) : forall b c,
  length a = length b -> length b = length c ->
  lex_leb Z.leb a b = true -> lex_leb Z.leb b c = true -> lex_leb Z.leb a c = true.
Proof.
  induction a as [|x a IH]; intros [|y b] [|z c]; cbn [length lex_leb];
    try discriminate; try reflexivity.
  intros [= Hab] [= Hbc].
  destruct (x <=? y)%Z eqn:E1; [|discriminate].
  destruct (y <=? x)%Z eqn:E2.
  - (* x = y *)
    assert (x = y) by (apply Z.leb_le in E1, E2; lia). subst y.
    destruct (x <=? z)%Z; [|discriminate].
    destruct (z <=? x)%Z; [|reflexivity]. now apply IH.
  - intros _. apply Z.leb_le in E1. apply Z.leb_gt in E2.
    destruct (y <=? z)%Z eqn:E3; [|discriminate]. apply Z.leb_le in E3.
    intros _. destruct (x <=? z)%Z eqn:E4; [|apply Z.leb_gt in E4; lia].
    destruct (z <=? x)%Z eqn:E5; [apply Z.leb_le in E5; lia | reflexivity].
Qed.

Lemma key_of_length {C} (idx : list nat) (row : list C) :
  forallb (fun i => (i <? length row)%nat) idx = true ->
  length (key_of idx row) = length idx.
Proof.
  unfold key_of. induction idx as [|i idx IH]; cbn [forallb flat_map length]; [reflexivity|].
  intros [Hi Hidx]%andb_true_iff. apply Nat.ltb_lt in Hi.
  destruct (nth_error row i) eqn:E.
  - cbn [app length]. now rewrite IH.
  - apply nth_error_None in E. lia.
Qed.

Lemma index_of_bound k cols i : index_of k cols = Some i -> (i < length cols)%nat.
Proof.
  revert i. induction cols as [|x cols IH]; intros i; cbn [index_of]; [discriminate|].
  destruct (String.eqb x k).
  - intros [= <-]. cbn. lia.
  - destruct (index_of k cols) as [j|]; [|discriminate].
    intros [= <-]. specialize (IH j eq_refl). cbn. lia.
Qed.

Lemma indices_of_bound keys cols idx :
  indices_of keys cols = Some idx ->
  forallb (fun i => (i <? length cols)%nat) idx = true.
Proof.
  revert idx. induction keys as [|k keys IH]; intros idx; cbn [indices_of].
  - intros [= <-]. reflexivity.
  - destruct (index_of k cols) as [i|] eqn:Ei; [|discriminate].
    destruct (indices_of keys cols) as [l|]; [|discriminate].
    intros [= <-]. cbn [forallb]. rewrite (IH l eq_refl), andb_true_r.
    apply Nat.ltb_lt. eapply index_of_bound; eauto.
Qed.

Lemma index_of_defined k cols : In k cols -> exists i, index_of k cols = Some i.
Proof.
  induction cols as [|x cols IH]; [intros []|]. cbn [index_of].
  destruct (String.eqb x k) eqn:E; [eauto|].
  intros [-> | H].
  - rewrite String.eqb_refl in E. discriminate.
  - destruct (IH H) as [i ->]. eauto.
Qed.

Lemma indices_of_defined keys cols :
  (forall k, In k keys -> In k cols) -> exists idx, indices_of keys cols = Some idx.
Proof.
  induction keys as [|k keys IH]; intros H; cbn [indices_of]; [eauto|].
  destruct (index_of_defined k cols) as [i ->]; [apply H; now left|].
  destruct IH as [l ->]; [intros; apply H; now right|]. eauto.
Qed.

Section SortRows.
Variable idx : list nat.
Variable width : nat.
Hypothesis Hidx : forallb (fun i => (i <? width)%nat) idx = true.

Let wide (r : list Z) : Prop := length r = width.
Let before (r1 r2 : list Z) : Prop := rows_leb Z.leb idx r1 r2 = true.

Lemma key_length r : wide r -> length (key_of idx r) = length idx.
Proof. intros Hr. apply key_of_length. unfold wide in Hr. now rewrite Hr. Qed.

Lemma before_trans r1 r2 r3 :
  wide r1 -> wide r2 -> wide r3 -> before r1 r2 -> before r2 r3 -> before r1 r3.
Proof.
  intros H1 H2 H3. unfold before, rows_leb.
  apply lex_leb_trans; rewrite !key_length; auto.
Qed.

Lemma insert_row_perm r l : Permutation (insert_row idx r l) (r :: l).
Proof.
  induction l as [|x l IH]; cbn [insert_row]; [reflexivity|].
  destruct (rows_leb Z.leb idx r x); [reflexivity|].
  rewrite IH. apply perm_swap.
Qed.

Lemma insert_row_sorted r l :
  wide r -> Forall wide l ->
  StronglySorted before l -> StronglySorted before (insert_row idx r l).
Proof.
  intros Hr Hl Hs. induction l as [|x l IH]; cbn [insert_row].
  - apply SSorted_cons; [apply SSorted_nil | apply List.Forall_nil].
  - apply List.Forall_cons_iff in Hl as [Hx Hl].
    apply StronglySorted_inv in Hs as [Hs Hxl].
    destruct (rows_leb Z.leb idx r x) eqn:E.
    + apply SSorted_cons; [apply SSorted_cons; assumption|].
      apply List.Forall_cons; [exact E|].
      rewrite List.Forall_forall in Hxl, Hl |- *. intros y Hy.
      apply (before_trans r x y); auto.
    + apply SSorted_cons; [now apply IH|].
      eapply Permutation_Forall.
      * symmetry. apply insert_row_perm.
      * apply List.Forall_cons; [|exact Hxl]. now apply lex_leb_total.
Qed.

Lemma sort_rows_perm l : Permutation (sort_rows idx l) l.
Proof.
  induction l as [|r l IH]; cbn [sort_rows fold_right]; [reflexivity|].
  rewrite insert_row_perm. now constructor.
Qed.

Lemma sort_rows_sorted l : Forall wide l -> StronglySorted before (sort_rows idx l).
Proof.
  induction l as [|r l IH]; cbn [sort_rows fold_right]; intros Hl; [constructor|].
  apply List.Forall_cons_iff in Hl as [Hr Hl].
  apply insert_row_sorted; auto.
  eapply Permutation_Forall; [symmetry; apply sort_rows_perm | exact Hl].
Qed.

End SortRows.

(* ===================================================================== *)
(** * The small instance keeps the contract: text *)
(* ===================================================================== *)

Lemma mini_render_eq t :
  mini_render t = "# " +:+ join " " (colnames t) +:+ chr LF +:+ rows_text (rows t).
Proof. reflexivity. Qed.

Lemma word_char_facts c :
  word_char c = true ->
  plain c = true /\ Ascii.eqb c CR = false /\ Ascii.eqb c HASH = false.
Proof.
  intros H.
  assert (E : forall x, word_char x = false -> Ascii.eqb c x = false).
  { intros x Hx. destruct (Ascii.eqb c x) eqn:E; [|reflexivity].
    apply ascii_eqb_true in E. subst x. congruence. }
  unfold plain, blank.
  rewrite (E SP), (E TAB), (E LF), (E CR), (E HASH) by reflexivity. auto.
Qed.

Lemma cell_char_facts c :
  cell_char c = true ->
  plain c = true /\ Ascii.eqb c CR = false /\ Ascii.eqb c HASH = false.
Proof.
  intros H.
  assert (E : forall x, cell_char x = false -> Ascii.eqb c x = false).
  { intros x Hx. destruct (Ascii.eqb c x) eqn:E; [|reflexivity].
    apply ascii_eqb_true in E. subst x. congruence. }
  unfold plain, blank.
  rewrite (E SP), (E TAB), (E LF), (E CR), (E HASH) by reflexivity. auto.
Qed.

Lemma is_word_inv n :
  is_word n = true ->
  all_chars word_char n = true /\ is_name n = true /\ is_comment n = false.
Proof.
  destruct n as [|c r]; [discriminate|]. cbn [is_word].
  intros [_ H]%andb_true_iff. split; [exact H|].
  assert (Hp : all_chars plain (String c r) = true).
  { revert H. apply all_chars_weaken. intros x Hx. now apply word_char_facts in Hx. }
  split.
  - unfold is_name. now rewrite Hp.
  - cbn [all_chars] in H. apply andb_true_iff in H as [Hc _].
    apply word_char_facts in Hc as (_ & _ & Hc). exact Hc.
Qed.

Lemma uint_chars d : all_chars cell_char (NilEmpty.string_of_uint d) = true.
Proof. induction d; cbn [NilEmpty.string_of_uint all_chars]; try rewrite IHd; reflexivity. Qed.

Lemma show_Z_chars z : all_chars cell_char (show_Z z) = true.
Proof.
  unfold show_Z, NilEmpty.string_of_int. destruct (Z.to_int z) as [d|d].
  - apply uint_chars.
  - cbn [all_chars]. now rewrite uint_chars.
Qed.

Lemma show_Z_read z : NilEmpty.int_of_string (show_Z z) = Some (Z.to_int z).
Proof. unfold show_Z. apply NilEmpty.isi. Qed.

Lemma show_Z_nonempty z : show_Z z <> "".
Proof.
  intros E. pose proof (show_Z_read z) as H. rewrite E in H.
  assert (Hz : z = 0%Z).
  { rewrite <- (DecimalZ.of_to z). cbn in H. injection H as <-. reflexivity. }
  subst z. discriminate E.
Qed.

Lemma read_cells_show r : read_cells (List.map show_Z r) = Some r.
Proof.
  induction r as [|z r IH]; [reflexivity|]. cbn [List.map read_cells].
  now rewrite show_Z_read, IH, DecimalZ.of_to.
Qed.

Lemma all_chars_join f (l : list string) :
  f SP = true -> forallb (all_chars f) l = true -> all_chars f (join " " l) = true.
Proof.
  intros Hsp. induction l as [|x l IH]; [reflexivity|]. cbn [forallb].
  intros [Hx Hl]%andb_true_iff. destruct l as [|y l]; [exact Hx|].
  change (join " " (x :: y :: l)) with (x +:+ " " +:+ join " " (y :: l)).
  rewrite all_chars_app, Hx. change (" " +:+ ?s) with (String SP s).
  cbn [all_chars andb]. now rewrite Hsp, IH.
Qed.

Lemma split_join_space (l : list string) :
  l <> [] -> forallb (all_chars plain) l = true -> split " " (join " " l) = l.
Proof.
  induction l as [|x l IH]; [congruence|]. intros _. cbn [forallb].
  intros [Hx Hl]%andb_true_iff. destruct l as [|y l].
  - now apply split_plain.
  - change (join " " (x :: y :: l)) with (x +:+ String SP (join " " (y :: l))).
    rewrite (split_plain_app _ _ Hx), IH; [reflexivity | discriminate | exact Hl].
Qed.

Lemma row_text_chars r : all_chars (fun c => cell_char c || Ascii.eqb c SP) (row_text r) = true.
Proof.
  apply all_chars_join; [reflexivity|].
  induction r as [|z r IH]; [reflexivity|]. cbn [List.map forallb]. rewrite IH, andb_true_r.
  generalize (show_Z_chars z). apply all_chars_weaken. intros c ->. reflexivity.
Qed.

Lemma row_text_split r : r <> [] -> split " " (row_text r) = List.map show_Z r.
Proof.
  intros Hr. apply split_join_space.
  - destruct r; [congruence | discriminate].
  - clear Hr. induction r as [|z r IH]; [reflexivity|]. cbn [List.map forallb].
    rewrite IH, andb_true_r. generalize (show_Z_chars z). apply all_chars_weaken.
    intros c Hc. now apply cell_char_facts in Hc.
Qed.

Lemma row_text_head r :
  r <> [] -> exists c s, row_text r = String c s /\ cell_char c = true.
Proof.
  destruct r as [|z r]; [congruence|]. intros _.
  pose proof (show_Z_chars z) as Hc. pose proof (show_Z_nonempty z) as Hne.
  unfold row_text. cbn [List.map].
  destruct (show_Z z) as [|c s]; [congruence|].
  cbn [all_chars] in Hc. apply andb_true_iff in Hc as [Hc _].
  destruct (List.map show_Z r); cbn [join]; eauto.
Qed.

Lemma split_chr_cons c a r :
  split (chr c) (String a r) =
  if Ascii.eqb c a then "" :: split (chr c) r else cons_first a (split (chr c) r).
Proof. unfold split. cbn [split_go]. now rewrite prefix_chr. Qed.

Lemma split_line c (n r : string) :
  all_chars (fun x => negb (Ascii.eqb x c)) n = true ->
  split (chr c) (n +:+ String c r) = n :: split (chr c) r.
Proof.
  induction n as [|a n IH].
  - intros _. change ("" +:+ String c r) with (String c r).
    now rewrite split_chr_cons, Ascii.eqb_refl.
  - cbn [all_chars]. intros [Ha Hn]%andb_true_iff. apply negb_true_iff in Ha.
    change (String a n +:+ String c r) with (String a (n +:+ String c r)).
    rewrite split_chr_cons, (IH Hn), Ascii.eqb_sym, Ha. reflexivity.
Qed.

Lemma read_rows_text width rs :
  (0 < width)%nat ->
  forallb (fun r => (length r =? width)%nat) rs = true ->
  read_rows width (split (chr LF) (rows_text rs)) = Some rs.
Proof.
  intros Hw. induction rs as [|r rs IH]; [reflexivity|]. cbn [forallb rows_text fold_right].
  intros [Hr Hrs]%andb_true_iff. apply Nat.eqb_eq in Hr.
  assert (Hne : r <> []) by (destruct r; [cbn in Hr; lia | discriminate]).
  fold (rows_text rs).
  change (row_text r +:+ chr LF +:+ rows_text rs)
    with (row_text r +:+ String LF (rows_text rs)).
  rewrite split_line.
  2:{ generalize (row_text_chars r). apply all_chars_weaken. intros c Hc.
      apply negb_true_iff. destruct (Ascii.eqb c LF) eqn:E; [|reflexivity].
      apply ascii_eqb_true in E. subst c. discriminate Hc. }
  cbn [read_rows]. destruct (row_text_head r Hne) as (c & s & E & Hc).
  rewrite E. change (String.eqb (String c s) "") with false.
  apply cell_char_facts in Hc as (_ & _ & ->). cbn [orb]. rewrite <- E.
  rewrite (row_text_split r Hne), read_cells_show, (IH Hrs).
  now rewrite Hr, Nat.eqb_refl.
Qed.

Lemma universal_newlines_id s :
  all_chars (fun c => negb (Ascii.eqb c CR)) s = true -> universal_newlines s = s.
Proof.
  induction s as [|a r IH]; [reflexivity|]. cbn [all_chars universal_newlines].
  intros [Ha Hr]%andb_true_iff. apply negb_true_iff in Ha. now rewrite Ha, IH.
Qed.

Lemma rows_text_chars rs :
  all_chars (fun c => cell_char c || Ascii.eqb c SP || Ascii.eqb c LF) (rows_text rs) = true.
Proof.
  induction rs as [|r rs IH]; [reflexivity|]. cbn [rows_text fold_right]. fold (rows_text rs).
  rewrite !all_chars_app, IH, andb_true_r.
  assert (H : all_chars (fun c => cell_char c || Ascii.eqb c SP || Ascii.eqb c LF) (row_text r)
              = true).
  { generalize (row_text_chars r). apply all_chars_weaken. intros c ->. reflexivity. }
  rewrite H. reflexivity.
Qed.

Lemma rows_text_not_comment rs : is_comment (rows_text rs) = false.
Proof.
  pose proof (rows_text_chars rs) as H.
  destruct (rows_text rs) as [|c s]; [reflexivity|]. cbn [is_comment all_chars] in *.
  apply andb_true_iff in H as [H _].
  destruct (Ascii.eqb c HASH) eqn:E; [|reflexivity].
  apply ascii_eqb_true in E. subst c. discriminate H.
Qed.

Lemma header_words_chars (f : ascii -> bool) cols :
  (forall c, word_char c = true -> f c = true) -> f SP = true ->
  forallb is_word cols = true -> all_chars f (join " " cols) = true.
Proof.
  intros Hf Hsp Hcols. apply all_chars_join; [exact Hsp|].
  induction cols as [|n cols IH]; [reflexivity|]. cbn [forallb] in *.
  apply andb_true_iff in Hcols as [Hn Hcols]. rewrite (IH Hcols), andb_true_r.
  apply is_word_inv in Hn as (Hn & _). revert Hn. now apply all_chars_weaken.
Qed.

(* ===================================================================== *)
(** * The written table *)
(* ===================================================================== *)

(** The small instance behaves as the model expects of the library. *)
Lemma mini_contract : @astropy_contract mini_astropy mini_view.
Proof.
  split.
  - (* sort_defined *)
    intros keys t Hkeys. cbn [Table_sort mini_astropy]. unfold mini_sort.
    destruct (indices_of_defined keys (colnames t) Hkeys) as [idx ->]. eauto.
  - (* sort_sorted *)
    intros keys t ts Hrect. cbn [Table_sort mini_astropy]. unfold mini_sort.
    destruct (indices_of keys (colnames t)) as [idx|] eqn:Hidx; [|discriminate].
    intros [= <-]. cbn [table_colnames table_rows mini_view colnames rows].
    split; [reflexivity|]. split; [apply sort_rows_perm|].
    unfold sorted_by. cbn [table_colnames table_rows mini_view colnames rows cell_leb].
    rewrite Hidx.
    apply (sort_rows_sorted idx (length (colnames t))).
    + now apply indices_of_bound with (keys := keys).
    + unfold rectangular in Hrect. cbn [table_colnames table_rows mini_view] in Hrect.
      apply List.Forall_forall. intros r Hr.
      rewrite List.forallb_forall in Hrect. now apply Nat.eqb_eq, Hrect.
  - (* write_refused *)
    intros t name fs c Hc. cbn [Table_write mini_astropy]. unfold mini_write. now rewrite Hc.
  - (* write_done *)
    intros t name fs fs'. cbn [Table_write mini_astropy written_text mini_view].
    unfold mini_write. destruct (fs !! name); [discriminate|]. now intros [= <-].
  - (* written_header *)
    intros t Hwords Hne. cbn [table_colnames written_text mini_view] in *.
    exists (rows_text (rows t)). split; [|apply rows_text_not_comment].
    rewrite mini_render_eq. apply universal_newlines_id.
    change ("# " +:+ ?s) with (String HASH (String SP s)). cbn [all_chars].
    change (negb (Ascii.eqb HASH CR)) with true. change (negb (Ascii.eqb SP CR)) with true.
    cbn [andb]. rewrite !all_chars_app.
    rewrite (header_words_chars _ (colnames t)); [| |reflexivity|exact Hwords].
    + cbn [chr all_chars andb]. change (negb (Ascii.eqb LF CR)) with true. cbn [andb].
      generalize (rows_text_chars (rows t)). apply all_chars_weaken.
      intros c Hc. apply negb_true_iff.
      destruct (Ascii.eqb c CR) eqn:E; [|reflexivity].
      apply ascii_eqb_true in E. subst c. discriminate Hc.
    + intros c Hc. apply word_char_facts in Hc as (_ & -> & _). reflexivity.
  - (* read_written *)
    intros t name fs Hwords Hne Hrect Hfs.
    cbn [table_colnames written_text mini_view ascii_read mini_astropy] in *.
    unfold mini_read. rewrite Hfs, mini_render_eq.
    change ("# " +:+ join " " (colnames t) +:+ chr LF +:+ rows_text (rows t))
      with (("# " +:+ join " " (colnames t)) +:+ String LF (rows_text (rows t))).
    rewrite split_line.
    2:{ change ("# " +:+ ?s) with (String HASH (String SP s)). cbn [all_chars].
        change (negb (Ascii.eqb HASH LF)) with true.
        change (negb (Ascii.eqb SP LF)) with true. cbn [andb].
        apply header_words_chars; [|reflexivity|exact Hwords].
        intros c Hc. apply word_char_facts in Hc as (Hp & _).
        now apply plain_inv in Hp as (_ & _ & ->). }
    cbn [read_rows]. change ("# " +:+ ?s) with (String HASH (String SP s)).
    change (String.eqb (String HASH ?s) "") with false.
    rewrite Ascii.eqb_refl. cbn [orb].
    rewrite read_rows_text.
    + now destruct t.
    + destruct (colnames t); [congruence | cbn; lia].
    + exact Hrect.
Qed.

Section WrittenTable.
Context {A : Astropy} {V : TableView A}.

Lemma rectangular_sorted (t ts : Table) :
  table_colnames ts = table_colnames t ->
  Permutation (table_rows ts) (table_rows t) ->
  rectangular t = true -> rectangular ts = true.
Proof.
  unfold rectangular. intros -> Hperm H.
  rewrite List.forallb_forall in H |- *. intros r Hr. apply H.
  now apply (Permutation_in r Hperm).
Qed.

(** C6, amended. Under the contract of the library, for a path and a table
    that has the age and the initial-mass column, whose column names are
    words and whose rows have one cell per column: sorting by [age; initial
    mass] succeeds and gives a table [ts] with the same columns and the same
    rows in ascending order of (age, initial mass). When a file exists under
    the path the constructor raises [OSError] and the files are as before.
    When the write succeeds the constructor returns the object, the file
    holds the text of [ts], [column_names] reads the names of the table from
    it and [data] reads [ts] back. *)
Theorem sorted_table_written_then_read (a0 d : pyobj) (p : Path) (iso : Isochrone)
  (w : World) (t : Table)
  (Hcontract : astropy_contract)
  (Hpath : pathlib_Path a0 = Ok p)
  (Htable : as_table d = Some t)
  (Hage : In (_Age iso) (table_colnames t))
  (Hmass : In (_M_ini iso) (table_colnames t))
  (Hwords : forallb is_word (table_colnames t) = true)
  (Hrect : rectangular t = true) :
  let name := Path_str p in
  let obj := {| _isochrone := iso; _path := p; _column_names := None; _data := None |} in
  exists ts,
    Table_sort [_Age iso; _M_ini iso] t = Ok ts /\
    table_colnames ts = table_colnames t /\
    Permutation (table_rows ts) (table_rows t) /\
    sorted_by [_Age iso; _M_ini iso] ts /\
    (forall c, files w !! name = Some c ->
       __init__ [a0; d] (Some iso) w
       = (Raise OSError None,
          {| files := files w; io_log := io_log w ++ [EvWrite name] |})) /\
    (fst (Table_write ts name (files w)) = Ok tt ->
       let w1 := {| files := <[name := written_text ts]> (files w);
                    io_log := io_log w ++ [EvWrite name] |} in
       __init__ [a0; d] (Some iso) w = (Ok obj, w1) /\
       fst (fst (column_names obj w1)) = Ok (Some (table_colnames t)) /\
       fst (fst (data obj w1)) = Ok (Some ts)).
Proof.
  intros name obj.
  destruct (sort_defined Hcontract [_Age iso; _M_ini iso] t) as [ts Hsort].
  { intros k [<- | [<- | []]]; assumption. }
  destruct (sort_sorted Hcontract _ t ts Hrect Hsort) as (Hcols & Hperm & Hsorted).
  exists ts. split; [exact Hsort|]. split; [exact Hcols|]. split; [exact Hperm|].
  split; [exact Hsorted|]. split.
  - (* the file exists *)
    intros c Hc. unfold __init__, _write_table. cbn [length Nat.eqb orb].
    rewrite Hpath. cbn [isochrone path _isochrone _path]. rewrite Htable, Hsort.
    fold name. now rewrite (write_refused Hcontract ts name (files w) c Hc).
  - (* the write succeeds *)
    intros Hok w1.
    destruct (Table_write ts name (files w)) as [r fs'] eqn:Hw. cbn [fst] in Hok. subst r.
    pose proof (write_done Hcontract ts name (files w) fs' Hw) as Hfs.
    assert (Hne : table_colnames ts <> []).
    { rewrite Hcols. intros E. rewrite E in Hage. destruct Hage. }
    assert (Hwords' : forallb is_word (table_colnames ts) = true) by now rewrite Hcols.
    destruct (written_header Hcontract ts Hwords' Hne) as (body & Htext & Hbody).
    assert (Hin : files w1 !! name = Some (written_text ts))
      by (unfold w1; cbn [files]; apply lookup_insert_eq).
    destruct (table_colnames ts) as [|n1 names] eqn:Ens; [congruence|].
    assert (Hc : column_names obj w1 =
                 (Ok (Some (n1 :: names)), set_column_names (Some (n1 :: names)) obj,
                  log_event (EvOpen name) w1)).
    { cbn [forallb] in Hwords'. apply andb_true_iff in Hwords' as [Hn1 Hns].
      apply is_word_inv in Hn1 as (_ & Hn1 & Hmark).
      assert (Hnames : forallb is_name names = true).
      { clear -Hns. induction names as [|n names IH]; [reflexivity|]. cbn [forallb] in *.
        apply andb_true_iff in Hns as [Hn Hns]. apply is_word_inv in Hn as (_ & -> & _).
        now rewrite IH. }
      rewrite (column_names_load obj w1 (written_text ts) eq_refl Hin), Htext.
      assert (E : "# " +:+ join " " (n1 :: names) +:+ chr LF +:+ body
                  = comment_block [] +:+ header_line 1 n1 (List.map (pair " ") names)
                    +:+ body).
      { unfold header_line. rewrite join_names_line. cbn [comment_block spaces].
        change ("" +:+ ?x) with x.
        change (String HASH (String SP "" +:+ ?x +:+ chr LF) +:+ body)
          with (String HASH (String SP ((x +:+ chr LF) +:+ body))).
        now rewrite sapp_assoc. }
      rewrite E, read_header_found; try assumption; try reflexivity.
      - rewrite parse_header_line; try assumption.
        + now rewrite map_snd_pair.
        + now apply well_formed_plain.
      - now apply well_formed_plain. }
    split; [|split].
    + unfold __init__, _write_table. cbn [length Nat.eqb orb].
      rewrite Hpath. cbn [isochrone path _isochrone _path]. rewrite Htable, Hsort.
      fold name. rewrite Hw, Hfs. reflexivity.
    + rewrite Hc, <- Hcols. reflexivity.
    + unfold data, _load_data. cbn [_data obj]. rewrite Hc.
      cbn [_path set_column_names log_event files]. fold name.
      rewrite <- Ens. change (Path_str (_path obj)) with name.
      rewrite (read_written Hcontract ts name (files w1)); try assumption.
      * reflexivity.
      * rewrite Ens. exact Hwords'.
      * rewrite Ens. discriminate.
      * apply (rectangular_sorted t ts); [now rewrite Ens | exact Hperm | exact Hrect].
Qed.

End WrittenTable.

(** C6, as stated, fails: when a file already exists under the path the
    library refuses to write over it, so the constructor raises [OSError];
    no object is built and nothing is read back. *)
Lemma existing_file_not_overwritten :
  ~ (forall (a0 d : pyobj) (p : Path) (iso : Isochrone) (w : World) (t : Table),
       pathlib_Path a0 = Ok p ->
       as_table d = Some t ->
       In (_Age iso) (table_colnames t) ->
       In (_M_ini iso) (table_colnames t) ->
       forallb is_word (table_colnames t) = true ->
       rectangular t = true ->
       exists obj ts w1,
         __init__ [a0; d] (Some iso) w = (Ok obj, w1) /\
         files w1 !! Path_str p = Some (written_text ts) /\
         sorted_by [_Age iso; _M_ini iso] ts /\
         fst (fst (data obj w1)) = Ok (Some ts)).
Proof.
  intros H.
  destruct (H (PyStr "out/iso.dat") (PyTable t0) (Path_of_str "out/iso.dat") iso0
              (one_file "out/iso.dat" "old") t0 eq_refl eq_refl
              (or_introl eq_refl) (or_intror (or_introl eq_refl)) eq_refl eq_refl)
    as (obj & ts & w1 & Hinit & _).
  vm_compute in Hinit. discriminate Hinit.
Qed.

Lemma sorted_table_written_then_read_witness :
  let w1 := {| files := <["out/iso.dat" := mini_render t0_sorted]> ∅;
               io_log := [EvWrite "out/iso.dat"] |} in
  sorted_by ["Age"; "M_ini"] t0_sorted /\
  __init__ [PyStr "out/iso.dat"; PyTable t0] (Some iso0) no_files
  = (Ok (file_at "out/iso.dat"), w1) /\
  fst (fst (column_names (file_at "out/iso.dat") w1)) = Ok (Some ["Age"; "M_ini"; "logL"]) /\
  fst (fst (data (file_at "out/iso.dat") w1)) = Ok (Some t0_sorted).
Proof.
  destruct (sorted_table_written_then_read (PyStr "out/iso.dat") (PyTable t0)
              (Path_of_str "out/iso.dat") iso0 no_files t0 mini_contract eq_refl eq_refl
              (or_introl eq_refl) (or_intror (or_introl eq_refl)) eq_refl eq_refl)
    as (ts & Hsort & _ & _ & Hsorted & _ & Hdone).
  injection Hsort as <-.
  split; [exact Hsorted|]. exact (Hdone eq_refl).
Defined.
